(** * Kernel Module Management: the DaemonSet generator

    A shallow embedding of [internal/daemonset/daemonset.go] and the
    properties of its command synthesis, label protocol, lookup and
    garbage collection.

    Conventions of the embedding.
    - Go strings are [string]; [fmt.Sprintf] with [%s] verbs only is
      concatenation; [strings.Join] is [strings_Join].
    - A Go pointer [*T] is [option T]: [None] is [nil], [Some x] points
      at [x].  Dereferencing [nil] is the outcome [Panic].
    - A Go [map[string]T] is a [gmap string T]; indexing a missing key
      yields the zero value of [T].
    - A slice whose only uses are [len], [range], [append] and
      [strings.Join] is a [list]; where [nil] and the empty slice can be
      told apart by the caller the type [slice] keeps them apart. *)

From stdpp Require Import gmap strings list fin_maps.

(** ** Go library functions used by the package *)

(** [strings.Join(elems, sep)]. *)
Definition strings_Join (elems : list string) (sep : string) : string :=
  String.concat sep elems.

(** A Go slice value seen from outside: [nil] or a (possibly empty)
    backing sequence. *)
Inductive slice (A : Type) : Type :=
| nil_slice
| mk_slice (elems : list A).
Arguments nil_slice {A}.
Arguments mk_slice {A} elems.

(** [len(s)]. *)
Definition len {A} (s : slice A) : nat :=
  match s with
  | nil_slice => 0
  | mk_slice l => length l
  end.

(** [s == nil]. *)
Definition is_nil_slice {A} (s : slice A) : bool :=
  match s with
  | nil_slice => true
  | mk_slice _ => false
  end.

(** ** Package constants *)

Definition kubeletDevicePluginsVolumeName : string := "kubelet-device-plugins".
Definition kubeletDevicePluginsPath : string := "/var/lib/kubelet/device-plugins".
Definition nodeLibModulesPath : string := "/lib/modules".
Definition nodeLibModulesVolumeName : string := "node-lib-modules".
Definition nodeUsrLibModulesPath : string := "/usr/lib/modules".
Definition nodeUsrLibModulesVolumeName : string := "node-usr-lib-modules".
Definition nodeVarLibFirmwarePath : string := "/var/lib/firmware".
Definition nodeVarLibFirmwareVolumeName : string := "node-var-lib-firmware".
Definition devicePluginKernelVersion : string := "".

(** ** The modprobe specification (api/v1beta1) *)

(** Modelled from the spec: the declaration of [ModprobeArgs] lives in
    api/v1beta1, outside the sources at hand; the structured or raw
    arguments of one direction each. *)
Record ModprobeArgs : Type := {
  Load : list string;
  Unload : list string;
}.

(** Modelled from the spec: the declaration of [ModprobeSpec] lives in
    api/v1beta1, outside the sources at hand.  The fields are those the
    spec lists and the code reads; [Args] and [RawArgs] are pointers,
    compared with [nil] by the code. *)
Record ModprobeSpec : Type := {
  ModuleName : string;
  DirName : string;
  FirmwarePath : string;
  Parameters : list string;
  Args : option ModprobeArgs;
  RawArgs : option ModprobeArgs;
}.

(** [a != nil && len(a.<dir>) > 0], yielding the slice when it holds. *)
Definition nonempty_args (a : option ModprobeArgs)
    (dir : ModprobeArgs → list string) : option (list string) :=
  match a with
  | None => None
  | Some a => if bool_decide (0 < length (dir a)) then Some (dir a) else None
  end.

(** ** Command synthesis *)

Definition MakeLoadCommand (spec : ModprobeSpec) (modName : string) : list string :=
  let loadCommandShell := ["/bin/sh"; "-c"] in
  let loadCommand := "modprobe" in
  match nonempty_args (RawArgs spec) Load with
  | Some raLoad =>
      let loadCommand := loadCommand +:+ " " +:+ strings_Join raLoad " " in
      loadCommandShell ++ [loadCommand]
  | None =>
      let loadCommand :=
        if bool_decide (FirmwarePath spec ≠ "")
        then "cp -r " +:+ FirmwarePath spec +:+ " " +:+ nodeVarLibFirmwarePath
               +:+ "/" +:+ modName +:+ " && " +:+ loadCommand
        else loadCommand in
      let loadCommand :=
        match nonempty_args (Args spec) Load with
        | Some aLoad => loadCommand +:+ " " +:+ strings_Join aLoad " "
        | None => loadCommand +:+ " -v"
        end in
      let loadCommand :=
        if bool_decide (DirName spec ≠ "")
        then loadCommand +:+ " -d " +:+ DirName spec
        else loadCommand in
      let loadCommand := loadCommand +:+ " " +:+ ModuleName spec in
      let loadCommand :=
        if bool_decide (0 < length (Parameters spec))
        then loadCommand +:+ " " +:+ strings_Join (Parameters spec) " "
        else loadCommand in
      loadCommandShell ++ [loadCommand]
  end.

Definition MakeUnloadCommand (spec : ModprobeSpec) (modName : string) : list string :=
  let unloadCommandShell := ["/bin/sh"; "-c"] in
  let unloadCommand := "modprobe" in
  match nonempty_args (RawArgs spec) Unload with
  | Some raUnload =>
      let unloadCommand := unloadCommand +:+ " " +:+ strings_Join raUnload " " in
      unloadCommandShell ++ [unloadCommand]
  | None =>
      let unloadCommand :=
        match nonempty_args (Args spec) Unload with
        | Some aUnload => unloadCommand +:+ " " +:+ strings_Join aUnload " "
        | None => unloadCommand +:+ " -rv"
        end in
      let unloadCommand :=
        if bool_decide (DirName spec ≠ "")
        then unloadCommand +:+ " -d " +:+ DirName spec
        else unloadCommand in
      let unloadCommand := unloadCommand +:+ " " +:+ ModuleName spec in
      let unloadCommand :=
        if bool_decide (FirmwarePath spec ≠ "")
        then unloadCommand +:+ " && rm -rf " +:+ nodeVarLibFirmwarePath
               +:+ "/" +:+ modName
        else unloadCommand in
      unloadCommandShell ++ [unloadCommand]
  end.

(** The command string: the third element of the shell triple. *)
Definition command_string (cmd : list string) : string :=
  default "" (cmd !! 2).

(** ** Counting occurrences in a command string *)

(** [strings.Split(s, " ")]: the space-separated words of [s], empty
    words included. *)
Fixpoint split_spaces (s : string) : list string :=
  match s with
  | EmptyString => [EmptyString]
  | String c rest =>
      if Ascii.eqb c Ascii.Space
      then EmptyString :: split_spaces rest
      else match split_spaces rest with
           | [] => [String c EmptyString]
           | w :: ws => String c w :: ws
           end
  end.

(** How many space-separated words of [s] equal [w]. *)
Definition word_count (w s : string) : nat :=
  count_occ String.string_dec (split_spaces s) w.

(** How many positions of [s] the string [sub] starts at. *)
Fixpoint substring_count (sub s : string) : nat :=
  (if String.prefix sub s then 1 else 0) +
  match s with
  | EmptyString => 0
  | String _ rest => substring_count sub rest
  end.

(** ** Kubernetes objects (k8s.io/api), as far as the package builds
    or reads them *)

Record LocalObjectReference : Type := {
  lor_Name : string;
}.

Record OwnerReference : Type := {
  or_Kind : string;
  or_Name : string;
  or_Controller : option bool;
}.

Record ObjectMeta : Type := {
  Name : string;
  Namespace : string;
  Labels : gmap string string;
  Finalizers : list string;
  OwnerReferences : list OwnerReference;
}.

(** The zero [ObjectMeta], with [Labels] and [Finalizers] as given by a
    composite literal. *)
Definition ObjectMeta_literal (labels : gmap string string)
    (finalizers : list string) : ObjectMeta :=
  {| Name := ""; Namespace := ""; Labels := labels;
     Finalizers := finalizers; OwnerReferences := [] |}.

Inductive HostPathType : Type :=
| HostPathUnset
| HostPathDirectoryOrCreate
| HostPathDirectory.

Record HostPathVolumeSource : Type := {
  hp_Path : string;
  hp_Type : option HostPathType;
}.

(** Of the volume sources only [HostPath] is built by the package. *)
Record VolumeSource : Type := {
  HostPath : option HostPathVolumeSource;
}.

Record Volume : Type := {
  vol_Name : string;
  vol_VolumeSource : VolumeSource;
}.

Record VolumeMount : Type := {
  vm_Name : string;
  vm_ReadOnly : bool;
  vm_MountPath : string;
}.

Record EnvVar : Type := {
  env_Name : string;
  env_Value : string;
}.

(** Resource requirements are handed through unread. *)
Record ResourceRequirements : Type := {
  Limits : gmap string string;
  Requests : gmap string string;
}.

Record Capabilities : Type := {
  cap_Add : list string;
}.

Record SELinuxOptions : Type := {
  se_Type : string;
}.

Record SecurityContext : Type := {
  AllowPrivilegeEscalation : option bool;
  sc_Capabilities : option Capabilities;
  Privileged : option bool;
  RunAsUser : option Z;
  sc_SELinuxOptions : option SELinuxOptions;
}.

Record ExecAction : Type := {
  exec_Command : list string;
}.

Record LifecycleHandler : Type := {
  Exec : option ExecAction;
}.

Record Lifecycle : Type := {
  PostStart : option LifecycleHandler;
  PreStop : option LifecycleHandler;
}.

Record Container : Type := {
  c_Args : list string;
  c_Command : list string;
  c_Env : list EnvVar;
  c_Name : string;
  c_Image : string;
  c_ImagePullPolicy : string;
  c_Lifecycle : option Lifecycle;
  c_Resources : ResourceRequirements;
  c_SecurityContext : option SecurityContext;
  c_VolumeMounts : list VolumeMount;
}.

Record PodSpec : Type := {
  Containers : list Container;
  ImagePullSecrets : slice LocalObjectReference;
  NodeSelector : gmap string string;
  PriorityClassName : string;
  ServiceAccountName : string;
  Volumes : list Volume;
}.

Record PodTemplateSpec : Type := {
  tpl_ObjectMeta : ObjectMeta;
  tpl_Spec : PodSpec;
}.

Record LabelSelector : Type := {
  MatchLabels : gmap string string;
}.

Record DaemonSetSpec : Type := {
  Selector : option LabelSelector;
  Template : PodTemplateSpec;
}.

Record DaemonSet : Type := {
  ds_ObjectMeta : ObjectMeta;
  ds_Spec : DaemonSetSpec;
}.

Record Pod : Type := {
  pod_ObjectMeta : ObjectMeta;
}.

(** [m[k]] on a [map[string]string]: the zero value when [k] is missing
    (also on a nil map). *)
Definition index (m : gmap string string) (k : string) : string :=
  default "" (m !! k).

(** [ds.GetLabels()] and [ds.SetLabels(labels)]. *)
Definition GetLabels (ds : DaemonSet) : gmap string string :=
  Labels (ds_ObjectMeta ds).

Definition SetLabels (ds : DaemonSet) (labels : gmap string string) : DaemonSet :=
  let om := ds_ObjectMeta ds in
  {| ds_ObjectMeta :=
       {| Name := Name om; Namespace := Namespace om; Labels := labels;
          Finalizers := Finalizers om; OwnerReferences := OwnerReferences om |};
     ds_Spec := ds_Spec ds |}.

(** [ds.Spec = spec]. *)
Definition set_Spec (ds : DaemonSet) (spec : DaemonSetSpec) : DaemonSet :=
  {| ds_ObjectMeta := ds_ObjectMeta ds; ds_Spec := spec |}.

(** [ds.SetOwnerReferences(refs)]. *)
Definition SetOwnerReferences (ds : DaemonSet) (refs : list OwnerReference) : DaemonSet :=
  let om := ds_ObjectMeta ds in
  {| ds_ObjectMeta :=
       {| Name := Name om; Namespace := Namespace om; Labels := Labels om;
          Finalizers := Finalizers om; OwnerReferences := refs |};
     ds_Spec := ds_Spec ds |}.

(** ** The Module resource (api/v1beta1) *)

(** Modelled from the spec: the container of the module loader
    (api/v1beta1, outside the sources at hand), with the fields the
    code reads. *)
Record ModuleLoaderContainerSpec : Type := {
  mlc_ImagePullPolicy : string;
  Modprobe : ModprobeSpec;
}.

(** Modelled from the spec: the module-loader section (api/v1beta1),
    a struct value of the module spec. *)
Record ModuleLoaderSpec : Type := {
  ml_Container : ModuleLoaderContainerSpec;
  ml_ServiceAccountName : string;
}.

(** Modelled from the spec: the container of the device plugin
    (api/v1beta1), handed through to the generated container. *)
Record DevicePluginContainerSpec : Type := {
  dpc_Args : list string;
  dpc_Command : list string;
  dpc_Env : list EnvVar;
  dpc_Image : string;
  dpc_ImagePullPolicy : string;
  dpc_Resources : ResourceRequirements;
  dpc_VolumeMounts : list VolumeMount;
}.

(** Modelled from the spec: the device-plugin section (api/v1beta1). *)
Record DevicePluginSpec : Type := {
  dp_Container : DevicePluginContainerSpec;
  dp_ServiceAccountName : string;
  dp_Volumes : list Volume;
}.

(** Modelled from the spec: the module spec (api/v1beta1);
    [DevicePlugin] and [ImageRepoSecret] are pointers, compared with
    [nil] by the code. *)
Record ModuleSpec : Type := {
  DevicePlugin : option DevicePluginSpec;
  ModuleLoader : ModuleLoaderSpec;
  ImageRepoSecret : option LocalObjectReference;
  mod_Selector : gmap string string;
}.

(** Modelled from the spec: the Module resource (api/v1beta1), an
    object with metadata and a spec. *)
Record Module : Type := {
  mod_ObjectMeta : ObjectMeta;
  mod_Spec : ModuleSpec;
}.

(** [mod.Name]. *)
Definition mod_Name (kmod : Module) : string := Name (mod_ObjectMeta kmod).

(** ** Errors and outcomes *)

(** The errors of the package, one constructor per site that builds
    one; a collaborator's error is any value of this type. *)
Inductive error : Type :=
| errors_New (text : string)
    (* errors.New(text) *)
| could_not_delete (name : string) (cause : error)
    (* fmt.Errorf("could not delete DaemonSet %s: %v", name, cause) *)
| could_not_get_all (cause : error)
    (* fmt.Errorf("could not get all DaemonSets: %w", cause) *)
| could_not_list (cause : error)
    (* fmt.Errorf("could not list DaemonSets: %v", cause) *)
| multiple_found (kernelVersion : string).
    (* fmt.Errorf("multiple DaemonSets found for kernel %q", kernelVersion) *)

(** What a call does: return a value with a nil error, return an error
    (with the zero value), or panic on a nil dereference. *)
Inductive result (A : Type) : Type :=
| Ok (a : A)
| Err (e : error)
| Panic.
Arguments Ok {A} a.
Arguments Err {A} e.
Arguments Panic {A}.

(** ** Collaborators *)

(** The constants of internal/constants that the package reads; their
    values are outside the sources at hand and stay parameters. *)
Class Constants : Type := {
  ModuleNameLabel : string;
  DaemonSetRole : string;
  NodeLabelerFinalizer : string;
}.

Inductive ListOption : Type :=
| MatchingLabels (labels : gmap string string)
| InNamespace (namespace : string).

(** The object store (controller-runtime's [client.Client]), in state
    passing style over the state [C] of the store.  [client_Delete]
    yields the error of the call and the store after it; [client_List]
    yields the error and the items written into the list. *)
Class Client (C : Type) : Type := {
  client_Delete : C → DaemonSet → option error * C;
  client_List : C → list ListOption → option error * list DaemonSet;
}.

(** [controllerutil.SetControllerReference(owner, ds, scheme)]: the
    error of the call and the owner references of [ds] after it; the
    call writes no other field of [ds]. *)
Class ControllerUtil (S : Type) : Type := {
  SetControllerReference :
    Module → DaemonSet → S → option error * list OwnerReference;
}.

Record daemonSetGenerator (C S : Type) : Type := {
  client : C;
  kernelLabel : string;
  scheme : S;
}.
Arguments client {C S} _.
Arguments kernelLabel {C S} _.
Arguments scheme {C S} _.

Definition NewCreator {C S} (client : C) (kernelLabel : string) (scheme : S)
    : daemonSetGenerator C S :=
  {| client := client; kernelLabel := kernelLabel; scheme := scheme |}.

(** ** Label and selector utilities *)

(** The loop [for k, v := range m { n[k] = v }] into a fresh map. *)
Definition CopyMapStringString (m : gmap string string) : gmap string string :=
  map_fold (λ k v n, <[k := v]> n) ∅ m.

Definition getDriverContainerNodeLabel (moduleName : string) : string :=
  "kmm.node.kubernetes.io/" +:+ moduleName +:+ ".ready".

Definition getDevicePluginNodeLabel (moduleName : string) : string :=
  "kmm.node.kubernetes.io/" +:+ moduleName +:+ ".device-plugin-ready".

Definition IsDevicePluginKernelVersion (kernelVersion : string) : bool :=
  bool_decide (kernelVersion = devicePluginKernelVersion).

Definition GetDevicePluginKernelVersion : string := devicePluginKernelVersion.

Definition GetPodPullSecrets (secret : option LocalObjectReference)
    : slice LocalObjectReference :=
  match secret with
  | None => nil_slice
  | Some s => mk_slice [s]
  end.

(** A nil [labels] is replaced by a fresh map, which the empty [gmap]
    stands for already; then every override is written into it. *)
Definition OverrideLabels (labels overrides : gmap string string)
    : gmap string string :=
  map_fold (λ k v labels, <[k := v]> labels) labels overrides.

Section generator.
Context `{Constants} {C S : Type} `{Client C} `{ControllerUtil S}.

(** ** Module-loader workload *)

Definition SetDriverContainerAsDesired (dc : daemonSetGenerator C S)
    (ds : option DaemonSet) (image : string) (kmod : Module)
    (kernelVersion : string) : result unit * option DaemonSet :=
  match ds with
  | None => (Err (errors_New "ds cannot be nil"), ds)
  | Some d =>
    if bool_decide (image = "") then
      (Err (errors_New "image cannot be empty"), ds)
    else if bool_decide (kernelVersion = "") then
      (Err (errors_New "kernelVersion cannot be empty"), ds)
    else
      let standardLabels : gmap string string :=
        <[DaemonSetRole := "module-loader"]>
          (<[kernelLabel dc := kernelVersion]>
             (<[ModuleNameLabel := mod_Name kmod]> ∅)) in
      let d := SetLabels d (OverrideLabels (GetLabels d) standardLabels) in
      let nodeSelector :=
        <[kernelLabel dc := kernelVersion]>
          (CopyMapStringString (mod_Selector (mod_Spec kmod))) in
      let hostPathDirectory := HostPathDirectory in
      let hostPathDirectoryOrCreate := HostPathDirectoryOrCreate in
      let modprobe := Modprobe (ml_Container (ModuleLoader (mod_Spec kmod))) in
      let volumeMounts :=
        [ {| vm_Name := nodeLibModulesVolumeName; vm_ReadOnly := true;
             vm_MountPath := nodeLibModulesPath |};
          {| vm_Name := nodeUsrLibModulesVolumeName; vm_ReadOnly := true;
             vm_MountPath := nodeUsrLibModulesPath |} ] in
      let volumes :=
        [ {| vol_Name := nodeLibModulesVolumeName;
             vol_VolumeSource :=
               {| HostPath := Some {| hp_Path := nodeLibModulesPath;
                                      hp_Type := Some hostPathDirectory |} |} |};
          {| vol_Name := nodeUsrLibModulesVolumeName;
             vol_VolumeSource :=
               {| HostPath := Some {| hp_Path := nodeUsrLibModulesPath;
                                      hp_Type := Some hostPathDirectory |} |} |} ] in
      let '(volumes, volumeMounts) :=
        if bool_decide (FirmwarePath modprobe ≠ "") then
          let moduleFirmwarePath :=
            nodeVarLibFirmwarePath +:+ "/" +:+ mod_Name kmod in
          let firmwareVolume :=
            {| vol_Name := nodeVarLibFirmwareVolumeName;
               vol_VolumeSource :=
                 {| HostPath :=
                      Some {| hp_Path := moduleFirmwarePath;
                              hp_Type := Some hostPathDirectoryOrCreate |} |} |} in
          let firmwareVolumeMount :=
            {| vm_Name := nodeVarLibFirmwareVolumeName; vm_ReadOnly := false;
               vm_MountPath := moduleFirmwarePath |} in
          (volumes ++ [firmwareVolume], volumeMounts ++ [firmwareVolumeMount])
        else (volumes, volumeMounts) in
      let container :=
        {| c_Args := [];
           c_Command := ["sleep"; "infinity"];
           c_Env := [];
           c_Name := "module-loader";
           c_Image := image;
           c_ImagePullPolicy :=
             mlc_ImagePullPolicy (ml_Container (ModuleLoader (mod_Spec kmod)));
           c_Lifecycle :=
             Some {| PostStart :=
                       Some {| Exec := Some {| exec_Command :=
                                 MakeLoadCommand modprobe (mod_Name kmod) |} |};
                     PreStop :=
                       Some {| Exec := Some {| exec_Command :=
                                 MakeUnloadCommand modprobe (mod_Name kmod) |} |} |};
           c_Resources := {| Limits := ∅; Requests := ∅ |};
           c_SecurityContext :=
             Some {| AllowPrivilegeEscalation := Some false;
                     sc_Capabilities := Some {| cap_Add := ["SYS_MODULE"] |};
                     Privileged := None;
                     RunAsUser := Some 0%Z;
                     sc_SELinuxOptions := Some {| se_Type := "spc_t" |} |};
           c_VolumeMounts := volumeMounts |} in
      let d := set_Spec d
        {| Template :=
             {| tpl_ObjectMeta :=
                  ObjectMeta_literal standardLabels [NodeLabelerFinalizer];
                tpl_Spec :=
                  {| Containers := [container];
                     ImagePullSecrets :=
                       GetPodPullSecrets (ImageRepoSecret (mod_Spec kmod));
                     NodeSelector := nodeSelector;
                     PriorityClassName := "system-node-critical";
                     ServiceAccountName :=
                       ml_ServiceAccountName (ModuleLoader (mod_Spec kmod));
                     Volumes := volumes |} |};
           Selector := Some {| MatchLabels := standardLabels |} |} in
      let '(err, refs) := SetControllerReference kmod d (scheme dc) in
      (match err with Some e => Err e | None => Ok () end,
       Some (SetOwnerReferences d refs))
  end.

(** ** Device-plugin workload *)

Definition SetDevicePluginAsDesired (dc : daemonSetGenerator C S)
    (ds : option DaemonSet) (kmod : option Module)
    : result unit * option DaemonSet :=
  match ds with
  | None => (Err (errors_New "ds cannot be nil"), ds)
  | Some d =>
    match kmod with
    | None => (Panic, ds)
    | Some kmod =>
      match DevicePlugin (mod_Spec kmod) with
      | None => (Err (errors_New "device plugin in module should not be nil"), ds)
      | Some devicePlugin =>
        let containerVolumeMounts :=
          [ {| vm_Name := kubeletDevicePluginsVolumeName; vm_ReadOnly := false;
               vm_MountPath := kubeletDevicePluginsPath |} ] in
        let hostPathDirectory := HostPathDirectory in
        let devicePluginVolume :=
          {| vol_Name := kubeletDevicePluginsVolumeName;
             vol_VolumeSource :=
               {| HostPath := Some {| hp_Path := kubeletDevicePluginsPath;
                                      hp_Type := Some hostPathDirectory |} |} |} in
        let standardLabels : gmap string string :=
          <[DaemonSetRole := "device-plugin"]>
            (<[ModuleNameLabel := mod_Name kmod]> ∅) in
        let d := SetLabels d (OverrideLabels (GetLabels d) standardLabels) in
        let d := set_Spec d
          {| Selector := Some {| MatchLabels := standardLabels |};
             Template :=
               {| tpl_ObjectMeta :=
                    ObjectMeta_literal standardLabels [NodeLabelerFinalizer];
                  tpl_Spec :=
                    {| Containers :=
                         [ {| c_Args := dpc_Args (dp_Container devicePlugin);
                              c_Command := dpc_Command (dp_Container devicePlugin);
                              c_Env := dpc_Env (dp_Container devicePlugin);
                              c_Name := "device-plugin";
                              c_Image := dpc_Image (dp_Container devicePlugin);
                              c_ImagePullPolicy :=
                                dpc_ImagePullPolicy (dp_Container devicePlugin);
                              c_Lifecycle := None;
                              c_Resources :=
                                dpc_Resources (dp_Container devicePlugin);
                              c_SecurityContext :=
                                Some {| AllowPrivilegeEscalation := None;
                                        sc_Capabilities := None;
                                        Privileged := Some true;
                                        RunAsUser := None;
                                        sc_SELinuxOptions := None |};
                              c_VolumeMounts :=
                                dpc_VolumeMounts (dp_Container devicePlugin)
                                  ++ containerVolumeMounts |} ];
                       PriorityClassName := "system-node-critical";
                       ImagePullSecrets :=
                         GetPodPullSecrets (ImageRepoSecret (mod_Spec kmod));
                       NodeSelector :=
                         {[ getDriverContainerNodeLabel (mod_Name kmod) := "" ]};
                       ServiceAccountName := dp_ServiceAccountName devicePlugin;
                       Volumes := [devicePluginVolume] ++ dp_Volumes devicePlugin
                    |} |} |} in
        let '(err, refs) := SetControllerReference kmod d (scheme dc) in
        (match err with Some e => Err e | None => Ok () end,
         Some (SetOwnerReferences d refs))
      end
    end
  end.

(** ** Node-readiness label protocol *)

Definition GetNodeLabelFromPod (dc : daemonSetGenerator C S)
    (pod : option Pod) (moduleName : string) : result string :=
  match pod with
  | None => Panic
  | Some p =>
    let kernelVersion := index (Labels (pod_ObjectMeta p)) (kernelLabel dc) in
    if bool_decide (kernelVersion = devicePluginKernelVersion)
    then Ok (getDevicePluginNodeLabel moduleName)
    else Ok (getDriverContainerNodeLabel moduleName)
  end.

(** ** Lookup *)

Definition moduleDaemonSets (dc : daemonSetGenerator C S)
    (name namespace : string) : result (list DaemonSet) :=
  let opts := [MatchingLabels {[ ModuleNameLabel := name ]};
               InNamespace namespace] in
  let '(err, items) := client_List (client dc) opts in
  match err with
  | Some e => Err (could_not_list e)
  | None => Ok items
  end.

(** The loop of [ModuleDaemonSetsByKernelVersion] over the items still
    to visit; every value it stores is the address of a fresh copy,
    hence never nil. *)
Fixpoint index_by_kernel_version (dc : daemonSetGenerator C S)
    (dsList : list DaemonSet)
    (dsByKernelVersion : gmap string (option DaemonSet))
    : result (gmap string (option DaemonSet)) :=
  match dsList with
  | [] => Ok dsByKernelVersion
  | ds :: rest =>
    let kernelVersion := index (Labels (ds_ObjectMeta ds)) (kernelLabel dc) in
    match dsByKernelVersion !! kernelVersion with
    | Some (Some _) => Err (multiple_found kernelVersion)
    | _ =>
      index_by_kernel_version dc rest
        (<[kernelVersion := Some ds]> dsByKernelVersion)
    end
  end.

Definition ModuleDaemonSetsByKernelVersion (dc : daemonSetGenerator C S)
    (name namespace : string) : result (gmap string (option DaemonSet)) :=
  match moduleDaemonSets dc name namespace with
  | Err e => Err (could_not_get_all e)
  | Panic => Panic
  | Ok dsList => index_by_kernel_version dc dsList ∅
  end.

(** ** Garbage collection *)

Definition isDevicePluginDaemonSet (dc : daemonSetGenerator C S)
    (ds : option DaemonSet) : result bool :=
  match ds with
  | None => Panic
  | Some d =>
    Ok (bool_decide (index (Labels (ds_ObjectMeta d)) (kernelLabel dc) = ""))
  end.

(** The state of a run of [GarbageCollect]: the object store, the
    names accumulated in [deleted], and (ghost) the objects handed to
    [client.Delete] so far, in call order. *)
Record gc_state : Type := {
  gc_client : C;
  gc_deleted : list string;
  gc_calls : list DaemonSet;
}.

(** The [range] loop over the entries still to visit.  Go leaves the
    iteration order of a map open: the entries come as a list, in the
    order of the run. *)
Fixpoint GarbageCollect_range (dc : daemonSetGenerator C S)
    (entries : list (string * option DaemonSet)) (validKernels : gset string)
    (st : gc_state) : result (list string) * gc_state :=
  match entries with
  | [] => (Ok (gc_deleted st), st)
  | (kernelVersion, ds) :: rest =>
    match ds, isDevicePluginDaemonSet dc ds with
    | Some d, Ok isDevicePlugin =>
      if negb isDevicePlugin && negb (bool_decide (kernelVersion ∈ validKernels))
      then
        let '(err, c) := client_Delete (gc_client st) d in
        let calls := gc_calls st ++ [d] in
        match err with
        | Some e =>
          (Err (could_not_delete (Name (ds_ObjectMeta d)) e),
           {| gc_client := c; gc_deleted := gc_deleted st; gc_calls := calls |})
        | None =>
          GarbageCollect_range dc rest validKernels
            {| gc_client := c;
               gc_deleted := gc_deleted st ++ [Name (ds_ObjectMeta d)];
               gc_calls := calls |}
        end
      else GarbageCollect_range dc rest validKernels st
    | _, _ => (Panic, st)
    end
  end.

(** [GarbageCollect] on the entries of [existingDS] in the order
    [entries] in which the run visits them. *)
Definition GarbageCollect (dc : daemonSetGenerator C S)
    (entries : list (string * option DaemonSet)) (validKernels : gset string)
    : result (list string) * gc_state :=
  GarbageCollect_range dc entries validKernels
    {| gc_client := client dc; gc_deleted := []; gc_calls := [] |}.

End generator.

(** ** Notions used to state the properties *)

(** The load command up to, and without, the module name: the staging
    of the firmware, [modprobe], its flags and the directory option. *)
Definition load_command_head (spec : ModprobeSpec) (modName : string) : string :=
  (if bool_decide (FirmwarePath spec ≠ "")
   then "cp -r " +:+ FirmwarePath spec +:+ " /var/lib/firmware/" +:+ modName
          +:+ " && modprobe"
   else "modprobe")
  +:+ " " +:+
  (match nonempty_args (Args spec) Load with
   | Some aLoad => strings_Join aLoad " "
   | None => "-v"
   end)
  +:+
  (if bool_decide (DirName spec ≠ "") then " -d " +:+ DirName spec else "").

(** What follows the module name in the load command. *)
Definition load_command_tail (spec : ModprobeSpec) : string :=
  match Parameters spec with
  | [] => ""
  | _ :: _ => " " +:+ strings_Join (Parameters spec) " "
  end.

(** The value of the kernel-version label of a workload, as the
    generator [dc] reads it. *)
Definition kernel_version_of {C S} (dc : daemonSetGenerator C S)
    (d : DaemonSet) : string :=
  index (Labels (ds_ObjectMeta d)) (kernelLabel dc).

(** [DaemonSet.Name]. *)
Definition ds_Name (d : DaemonSet) : string := Name (ds_ObjectMeta d).

(** The workloads that a run over [entries] hands to [client.Delete]
    when no call fails: those with a non-empty kernel-version label
    whose key is outside [validKernels], in the order of the run. *)
Definition gc_targets {C S} (dc : daemonSetGenerator C S)
    (validKernels : gset string) (entries : list (string * option DaemonSet))
    : list DaemonSet :=
  omap (λ e : string * option DaemonSet,
          d ← e.2;
          if bool_decide (kernel_version_of dc d ≠ "" ∧ e.1 ∉ validKernels)
          then Some d else None) entries.

(** An entry is stale by its key: the key is neither the device-plugin
    sentinel nor a valid kernel. *)
Definition stale_key (validKernels : gset string)
    (e : string * option DaemonSet) : Prop :=
  e.1 ≠ devicePluginKernelVersion ∧ e.1 ∉ validKernels.

Global Instance stale_key_dec validKernels e : Decision (stale_key validKernels e).
Proof. unfold stale_key. apply _. Defined.

(** The load arguments behind a pointer, a nil pointer holding none. *)
Definition load_list (a : option ModprobeArgs) : list string :=
  from_option Load [] a.

(** The unload arguments behind a pointer, a nil pointer holding none. *)
Definition unload_list (a : option ModprobeArgs) : list string :=
  from_option Unload [] a.

(** The specification [spec] with another firmware path. *)
Definition with_FirmwarePath (spec : ModprobeSpec) (fw : string) : ModprobeSpec :=
  {| ModuleName := ModuleName spec; DirName := DirName spec;
     FirmwarePath := fw; Parameters := Parameters spec;
     Args := Args spec; RawArgs := RawArgs spec |}.

(** The standard labels of the module loader of a module for a kernel:
    the map literal of [SetDriverContainerAsDesired]. *)
Definition loader_labels `{Constants} (kernelLabel name kernelVersion : string)
    : gmap string string :=
  <[DaemonSetRole := "module-loader"]>
    (<[kernelLabel := kernelVersion]> (<[ModuleNameLabel := name]> ∅)).

(** The standard labels of the device plugin of a module: the map
    literal of [SetDevicePluginAsDesired]. *)
Definition plugin_labels `{Constants} (name : string) : gmap string string :=
  <[DaemonSetRole := "device-plugin"]> (<[ModuleNameLabel := name]> ∅).


(** The pod spec and the only container of a workload, if it has
    exactly one. *)
Definition pod_spec (d : DaemonSet) : PodSpec := tpl_Spec (Template (ds_Spec d)).

Definition only_container (d : DaemonSet) : option Container :=
  match Containers (pod_spec d) with
  | [c] => Some c
  | _ => None
  end.

(** The result that goes with the error of a call. *)
Definition result_of_error (err : option error) : result unit :=
  match err with
  | Some e => Err e
  | None => Ok ()
  end.

(** The store after [client.Delete] on each of the workloads in turn,
    provided no call returns an error; [None] when a call does. *)
Fixpoint delete_each {C} `{!Client C} (c : C) (ds : list DaemonSet) : option C :=
  match ds with
  | [] => Some c
  | d :: rest =>
      match client_Delete c d with
      | (None, c') => delete_each c' rest
      | (Some _, _) => None
      end
  end.

(** ** Sample collaborators, for the concrete runs *)

Global Instance sample_constants : Constants :=
  {| ModuleNameLabel := "kmm.node.kubernetes.io/module.name";
     DaemonSetRole := "kmm.node.kubernetes.io/role";
     NodeLabelerFinalizer := "kmm.node.kubernetes.io/node-labeler" |}.

(** An object store held in memory: [Delete] removes the workloads of
    the given name and fails when there is none; [List] yields them
    all. *)
Global Instance memory_client : Client (list DaemonSet) :=
  {| client_Delete := λ store d,
       if bool_decide (ds_Name d ∈ ds_Name <$> store)
       then (None, filter (λ x, ds_Name x ≠ ds_Name d) store)
       else (Some (errors_New "not found"), store);
     client_List := λ store _, (None, store) |}.

(** An object store that counts the deletions and refuses none. *)
Global Instance counting_client : Client nat :=
  {| client_Delete := λ count _, (None, 1 + count);
     client_List := λ _ _, (None, []) |}.

(** A controller utility that makes the module the only owner. *)
Global Instance sample_controllerutil : ControllerUtil unit :=
  {| SetControllerReference := λ owner _ _,
       (None, [ {| or_Kind := "Module"; or_Name := mod_Name owner;
                   or_Controller := Some true |} ]) |}.

(** A controller utility that refuses every owner with the error it has
    for a scheme, and leaves the owner references as they are. *)
Global Instance refusing_controllerutil : ControllerUtil error :=
  {| SetControllerReference := λ _ d e,
       (Some e, OwnerReferences (ds_ObjectMeta d)) |}.

(** A workload with the given name and labels and an empty spec. *)
Definition sample_DaemonSet (name : string) (labels : gmap string string)
    : DaemonSet :=
  {| ds_ObjectMeta :=
       {| Name := name; Namespace := "ns"; Labels := labels;
          Finalizers := []; OwnerReferences := [] |};
     ds_Spec :=
       {| Selector := None;
          Template :=
            {| tpl_ObjectMeta := ObjectMeta_literal ∅ [];
               tpl_Spec :=
                 {| Containers := []; ImagePullSecrets := nil_slice;
                    NodeSelector := ∅; PriorityClassName := "";
                    ServiceAccountName := ""; Volumes := [] |} |} |} |}.

(** A module with the given name and device-plugin section. *)
Definition sample_Module (name : string) (dp : option DevicePluginSpec) : Module :=
  {| mod_ObjectMeta :=
       {| Name := name; Namespace := "ns"; Labels := ∅;
          Finalizers := []; OwnerReferences := [] |};
     mod_Spec :=
       {| DevicePlugin := dp;
          ModuleLoader :=
            {| ml_Container :=
                 {| mlc_ImagePullPolicy := "";
                    Modprobe :=
                      {| ModuleName := name; DirName := ""; FirmwarePath := "";
                         Parameters := []; Args := None; RawArgs := None |} |};
               ml_ServiceAccountName := "" |};
          ImageRepoSecret := None;
          mod_Selector := ∅ |} |}.

Definition sample_DevicePlugin : DevicePluginSpec :=
  {| dp_Container :=
       {| dpc_Args := []; dpc_Command := []; dpc_Env := [];
          dpc_Image := "registry.example/device-plugin:1";
          dpc_ImagePullPolicy := "";
          dpc_Resources := {| Limits := ∅; Requests := ∅ |};
          dpc_VolumeMounts := [] |};
     dp_ServiceAccountName := "";
     dp_Volumes := [] |}.

Definition sample_kernelLabel : string :=
  "kmm.node.kubernetes.io/kernel-version.full".

Definition sample_generator (store : list DaemonSet)
    : daemonSetGenerator (list DaemonSet) unit :=
  NewCreator store sample_kernelLabel ().

(** A module-loader workload for the kernel [kernelVersion]. *)
Definition sample_loader (name kernelVersion : string) : DaemonSet :=
  sample_DaemonSet name {[ sample_kernelLabel := kernelVersion ]}.

(** A module with the given name whose module loader has firmware. *)
Definition sample_firmware_Module (name fw : string) : Module :=
  {| mod_ObjectMeta := mod_ObjectMeta (sample_Module name None);
     mod_Spec :=
       {| DevicePlugin := None;
          ModuleLoader :=
            {| ml_Container :=
                 {| mlc_ImagePullPolicy := "";
                    Modprobe :=
                      {| ModuleName := name; DirName := ""; FirmwarePath := fw;
                         Parameters := []; Args := None; RawArgs := None |} |};
               ml_ServiceAccountName := "" |};
          ImageRepoSecret := None;
          mod_Selector := {[ "kubernetes.io/hostname" := "minikube" ]} |} |}.

(** A generator whose controller utility refuses every owner. *)
Definition refusing_generator (e : error)
    : daemonSetGenerator (list DaemonSet) error :=
  NewCreator [] sample_kernelLabel e.

(** No key of an index is bound to a nil pointer. *)
Definition no_nil (acc : gmap string (option DaemonSet)) : Prop :=
  ∀ k, acc !! k ≠ Some None.

(** * Properties *)

(** ** Strings and words *)

Lemma string_app_cons (x : Ascii.ascii) (a b : string) :
  String x a +:+ b = String x (a +:+ b).
Proof. reflexivity. Qed.

Lemma string_app_nil_l (a : string) : "" +:+ a = a.
Proof. reflexivity. Qed.

Lemma string_app_assoc (a b c : string) : (a +:+ b) +:+ c = a +:+ b +:+ c.
Proof.
  induction a as [|x a IH]; [done|].
  by rewrite !string_app_cons, IH.
Qed.

Lemma string_app_nil_r (a : string) : a +:+ "" = a.
Proof.
  induction a as [|x a IH]; [done|].
  by rewrite string_app_cons, IH.
Qed.

Lemma split_spaces_not_nil (s : string) : split_spaces s ≠ [].
Proof.
  destruct s as [|c s]; simpl; [done|].
  destruct (Ascii.eqb c Ascii.Space); [done|].
  by destruct (split_spaces s).
Qed.

(** A space between two strings separates their words. *)
Lemma split_spaces_app (a b : string) :
  split_spaces (a +:+ " " +:+ b) = split_spaces a ++ split_spaces b.
Proof.
  induction a as [|c a IH]; [done|].
  rewrite string_app_cons. simpl.
  destruct (Ascii.eqb c Ascii.Space); rewrite IH; [done|].
  pose proof (split_spaces_not_nil a) as Hne.
  by destruct (split_spaces a).
Qed.

Lemma word_count_app (w a b : string) :
  word_count w (a +:+ " " +:+ b) = word_count w a + word_count w b.
Proof. unfold word_count. by rewrite split_spaces_app, count_occ_app. Qed.

Lemma word_count_single (w : string) :
  split_spaces w = [w] → word_count w w = 1.
Proof.
  intros Hw. unfold word_count. rewrite Hw. simpl.
  by destruct (String.string_dec w w).
Qed.

Lemma word_count_Join (w p : string) (ps : list string) :
  (∀ q, q ∈ p :: ps → word_count w q = 0) →
  word_count w (strings_Join (p :: ps) " ") = 0.
Proof.
  revert p. induction ps as [|p' ps IH]; intros p Hall.
  - apply Hall. set_solver.
  - change (strings_Join (p :: p' :: ps) " ")
      with (p +:+ " " +:+ strings_Join (p' :: ps) " ").
    rewrite word_count_app, (Hall p) by set_solver.
    rewrite IH; [done|]. intros q Hq. apply Hall. by constructor.
Qed.

(** ** Command synthesis *)

Example MakeLoadCommand_plain :
  MakeLoadCommand {| ModuleName := "kmm_ci_a"; DirName := ""; FirmwarePath := "";
                     Parameters := []; Args := None; RawArgs := None |} "kmm-ci"
  = ["/bin/sh"; "-c"; "modprobe -v kmm_ci_a"].
Proof. reflexivity. Qed.

Example MakeUnloadCommand_plain :
  MakeUnloadCommand {| ModuleName := "kmm_ci_a"; DirName := ""; FirmwarePath := "";
                       Parameters := []; Args := None; RawArgs := None |} "kmm-ci"
  = ["/bin/sh"; "-c"; "modprobe -rv kmm_ci_a"].
Proof. reflexivity. Qed.

Example MakeLoadCommand_all_fields :
  MakeLoadCommand {| ModuleName := "m"; DirName := "/opt"; FirmwarePath := "/fw";
                     Parameters := ["a=1"; "b=2"];
                     Args := Some {| Load := ["-f"; "-q"]; Unload := [] |};
                     RawArgs := Some {| Load := []; Unload := ["-r"; "x"] |} |} "mod"
  = ["/bin/sh"; "-c";
     "cp -r /fw /var/lib/firmware/mod && modprobe -f -q -d /opt m a=1 b=2"].
Proof. reflexivity. Qed.

Example split_spaces_keeps_empty_words :
  split_spaces "modprobe -v  m" = ["modprobe"; "-v"; ""; "m"].
Proof. reflexivity. Qed.

Lemma nonempty_args_Some (a : ModprobeArgs) (dir : ModprobeArgs → list string) :
  dir a ≠ [] → nonempty_args (Some a) dir = Some (dir a).
Proof.
  intros Hne. unfold nonempty_args.
  rewrite bool_decide_true; [done|].
  destruct (dir a); [done | simpl; lia].
Qed.

(** The load command with raw load arguments. *)
Lemma MakeLoadCommand_raw (spec : ModprobeSpec) (modName : string)
    (ra : ModprobeArgs) :
  RawArgs spec = Some ra → Load ra ≠ [] →
  MakeLoadCommand spec modName
  = ["/bin/sh"; "-c"; "modprobe " +:+ strings_Join (Load ra) " "].
Proof.
  intros Hra Hne. unfold MakeLoadCommand.
  by rewrite Hra, nonempty_args_Some.
Qed.

(** C3.  Two specifications with the same non-empty [RawArgs.Load]
    yield the same load command, whatever their [Args], [DirName],
    [FirmwarePath] and [Parameters] (and whatever the module names):
    the triple [/bin/sh], [-c], [modprobe] followed by a space and the
    raw load arguments joined by spaces. *)
Theorem MakeLoadCommand_raw_args_only
    (spec1 spec2 : ModprobeSpec) (modName1 modName2 : string)
    (ra1 ra2 : ModprobeArgs) :
  RawArgs spec1 = Some ra1 → RawArgs spec2 = Some ra2 →
  Load ra1 = Load ra2 → Load ra1 ≠ [] →
  MakeLoadCommand spec1 modName1 = MakeLoadCommand spec2 modName2 ∧
  MakeLoadCommand spec1 modName1
  = ["/bin/sh"; "-c"; "modprobe " +:+ strings_Join (Load ra1) " "].
Proof.
  intros H1 H2 Heq Hne.
  rewrite (MakeLoadCommand_raw spec1 modName1 ra1 H1 Hne).
  rewrite (MakeLoadCommand_raw spec2 modName2 ra2 H2) by congruence.
  by rewrite Heq.
Qed.

Lemma MakeLoadCommand_raw_args_only_witness :
  let raw := {| Load := ["-a"; "mod_a"; "opt=1"]; Unload := [] |} in
  let spec1 := {| ModuleName := "mod_a"; DirName := "/opt"; FirmwarePath := "/fw";
                  Parameters := ["p=1"];
                  Args := Some {| Load := ["-f"]; Unload := [] |};
                  RawArgs := Some raw |} in
  let spec2 := {| ModuleName := "mod_a"; DirName := ""; FirmwarePath := "";
                  Parameters := []; Args := None; RawArgs := Some raw |} in
  MakeLoadCommand spec1 "mod_a" = MakeLoadCommand spec2 "mod_a" ∧
  MakeLoadCommand spec1 "mod_a" = ["/bin/sh"; "-c"; "modprobe -a mod_a opt=1"].
Proof.
  intros raw spec1 spec2.
  apply (MakeLoadCommand_raw_args_only spec1 spec2 "mod_a" "mod_a" raw raw);
    [reflexivity | reflexivity | reflexivity | discriminate].
Defined.

(** Without raw load arguments the load command is the head, the module
    name and the tail, in this order. *)
Lemma MakeLoadCommand_shape (spec : ModprobeSpec) (modName : string) :
  nonempty_args (RawArgs spec) Load = None →
  MakeLoadCommand spec modName
  = ["/bin/sh"; "-c";
     load_command_head spec modName +:+ " " +:+ ModuleName spec
       +:+ load_command_tail spec].
Proof.
  intros Hraw. unfold MakeLoadCommand, load_command_head, load_command_tail.
  rewrite Hraw. cbv zeta.
  destruct (bool_decide (FirmwarePath spec ≠ ""));
    destruct (nonempty_args (Args spec) Load) as [aLoad|];
    destruct (bool_decide (DirName spec ≠ ""));
    destruct (Parameters spec) as [|p ps]; simpl;
    rewrite ?string_app_assoc, ?string_app_nil_r; reflexivity.
Qed.

(** C4, as amended.  Without [RawArgs] the load command is a head built
    from [FirmwarePath], [Args.Load] and [DirName] alone, then a space
    and the module name, then, when there are [Parameters], a space and
    the parameters joined by spaces in their order.  The module name is
    a word of the command exactly once when it is a single word that is
    neither a word of the head nor a word of a parameter. *)
Theorem MakeLoadCommand_module_name_then_parameters
    (spec : ModprobeSpec) (modName : string) :
  RawArgs spec = None →
  MakeLoadCommand spec modName
  = ["/bin/sh"; "-c";
     load_command_head spec modName +:+ " " +:+ ModuleName spec
       +:+ load_command_tail spec] ∧
  (split_spaces (ModuleName spec) = [ModuleName spec] →
   word_count (ModuleName spec) (load_command_head spec modName) = 0 →
   (∀ p, p ∈ Parameters spec → word_count (ModuleName spec) p = 0) →
   word_count (ModuleName spec) (command_string (MakeLoadCommand spec modName)) = 1).
Proof.
  intros Hraw.
  assert (nonempty_args (RawArgs spec) Load = None) as Hnone by by rewrite Hraw.
  split; [by apply MakeLoadCommand_shape|].
  intros Hword Hhead Hparams.
  rewrite (MakeLoadCommand_shape spec modName Hnone).
  unfold command_string, load_command_tail. simpl.
  destruct (Parameters spec) as [|p ps].
  - rewrite string_app_nil_r, word_count_app, Hhead.
    by rewrite word_count_single.
  - rewrite !word_count_app, Hhead, word_count_single by done.
    by rewrite word_count_Join.
Qed.

Lemma MakeLoadCommand_module_name_then_parameters_witness :
  let spec := {| ModuleName := "m"; DirName := "";
                 FirmwarePath := "/var/lib/firmware/m";
                 Parameters := ["p1=1"]; Args := None; RawArgs := None |} in
  MakeLoadCommand spec "m"
  = ["/bin/sh"; "-c";
     "cp -r /var/lib/firmware/m /var/lib/firmware/m && modprobe -v m p1=1"] ∧
  word_count "m" (command_string (MakeLoadCommand spec "m")) = 1.
Proof.
  intros spec.
  destruct (MakeLoadCommand_module_name_then_parameters spec "m" eq_refl)
    as [Hshape Hcount].
  split; [exact Hshape|].
  apply Hcount; [reflexivity | reflexivity |].
  intros p Hp. apply list_elem_of_singleton in Hp. by subst p.
Defined.

(** C4, as stated, fails: a parameter (or a flag, or the directory) may
    repeat the module name, and then the name is in the command more
    than once, as a word and as a substring. *)
Lemma MakeLoadCommand_module_name_repeated :
  let spec := {| ModuleName := "m"; DirName := ""; FirmwarePath := "";
                 Parameters := ["m"]; Args := None; RawArgs := None |} in
  RawArgs spec = None ∧
  MakeLoadCommand spec "m" = ["/bin/sh"; "-c"; "modprobe -v m m"] ∧
  word_count (ModuleName spec) (command_string (MakeLoadCommand spec "m")) = 2 ∧
  substring_count (ModuleName spec) (command_string (MakeLoadCommand spec "m")) = 3.
Proof. repeat split. Qed.

(** C8.  For the module [m] with firmware path [/var/lib/firmware/m]
    and the parameter [p1=1], the load command stages the firmware into
    [/var/lib/firmware/m] and then, after [&&], runs [modprobe -v m p1=1];
    the unload command is [modprobe -rv m && rm -rf /var/lib/firmware/m]:
    cleanup after modprobe, no parameters. *)
Theorem firmware_scenario_commands :
  let spec := {| ModuleName := "m"; DirName := "";
                 FirmwarePath := "/var/lib/firmware/m";
                 Parameters := ["p1=1"]; Args := None; RawArgs := None |} in
  MakeLoadCommand spec "m"
  = ["/bin/sh"; "-c";
     "cp -r /var/lib/firmware/m /var/lib/firmware/m" +:+ " && "
       +:+ "modprobe -v m p1=1"] ∧
  MakeUnloadCommand spec "m"
  = ["/bin/sh"; "-c"; "modprobe -rv m && rm -rf /var/lib/firmware/m"] ∧
  word_count "p1=1" (command_string (MakeUnloadCommand spec "m")) = 0.
Proof. repeat split. Qed.

(** ** Label and selector utilities *)

(** Writing every override into [labels] is the union that prefers the
    overrides. *)
Lemma OverrideLabels_union (labels overrides : gmap string string) :
  OverrideLabels labels overrides = overrides ∪ labels.
Proof.
  unfold OverrideLabels.
  apply (map_fold_weak_ind (λ r m, r = m ∪ labels)).
  - by rewrite (left_id_L ∅ (∪)).
  - intros k v m r _ ->. by rewrite insert_union_l.
Qed.

Lemma OverrideLabels_lookup (labels overrides : gmap string string) (k : string) :
  OverrideLabels labels overrides !! k
  = match overrides !! k with
    | Some v => Some v
    | None => labels !! k
    end.
Proof.
  rewrite OverrideLabels_union, lookup_union.
  destruct (overrides !! k), (labels !! k); done.
Qed.

(** The copy has the bindings of the original. *)
Lemma CopyMapStringString_eq (m : gmap string string) :
  CopyMapStringString m = m.
Proof.
  pose proof (OverrideLabels_union ∅ m) as Hunion.
  unfold OverrideLabels in Hunion. unfold CopyMapStringString.
  by rewrite Hunion, (right_id_L ∅ (∪)).
Qed.

(** The two readiness keys of a module are never the same key. *)
Lemma readiness_labels_differ (moduleName : string) :
  getDevicePluginNodeLabel moduleName ≠ getDriverContainerNodeLabel moduleName.
Proof.
  unfold getDevicePluginNodeLabel, getDriverContainerNodeLabel.
  intros Heq.
  apply (inj (String.append _)) in Heq.
  apply (inj (String.append _)) in Heq.
  discriminate Heq.
Qed.

(** C5.  For a pod and a module name, the readiness key is
    [kmm.node.kubernetes.io/<moduleName>.device-plugin-ready] exactly
    when the value the pod carries under the kernel-version label is the
    empty string (a missing label reads as the empty string), and
    [kmm.node.kubernetes.io/<moduleName>.ready] exactly when it is not;
    the two keys differ, so it is one of them and never both. *)
Theorem GetNodeLabelFromPod_readiness_key {C S : Type}
    (dc : daemonSetGenerator C S) (pod : Pod) (moduleName : string) :
  let kernelVersion := index (Labels (pod_ObjectMeta pod)) (kernelLabel dc) in
  let devicePluginReady :=
    "kmm.node.kubernetes.io/" +:+ moduleName +:+ ".device-plugin-ready" in
  let driverReady := "kmm.node.kubernetes.io/" +:+ moduleName +:+ ".ready" in
  (GetNodeLabelFromPod dc (Some pod) moduleName = Ok devicePluginReady
   ↔ kernelVersion = "") ∧
  (GetNodeLabelFromPod dc (Some pod) moduleName = Ok driverReady
   ↔ kernelVersion ≠ "") ∧
  devicePluginReady ≠ driverReady.
Proof.
  intros kernelVersion devicePluginReady driverReady.
  pose proof (readiness_labels_differ moduleName) as Hne.
  unfold GetNodeLabelFromPod. fold kernelVersion.
  unfold devicePluginKernelVersion.
  change (getDevicePluginNodeLabel moduleName) with devicePluginReady in *.
  change (getDriverContainerNodeLabel moduleName) with driverReady in *.
  case_bool_decide as Hkv; (split; [|split]); try done; split; try done;
    intros Heq; congruence.
Qed.

Example GetNodeLabelFromPod_device_plugin_pod :
  GetNodeLabelFromPod (sample_generator [])
    (Some {| pod_ObjectMeta := ObjectMeta_literal {[ "app" := "x" ]} [] |}) "mod-a"
  = Ok "kmm.node.kubernetes.io/mod-a.device-plugin-ready".
Proof. reflexivity. Qed.

Example GetNodeLabelFromPod_module_loader_pod :
  GetNodeLabelFromPod (sample_generator [])
    (Some {| pod_ObjectMeta :=
               ObjectMeta_literal
                 {[ sample_kernelLabel := "5.14" ]} [] |})
    "mod-a"
  = Ok "kmm.node.kubernetes.io/mod-a.ready".
Proof. vm_compute. reflexivity. Qed.

(** C6, as stated, fails: without a secret the projection is the nil
    slice, not an empty non-nil one. *)
Lemma GetPodPullSecrets_absent_is_nil :
  GetPodPullSecrets None ≠ mk_slice [] ∧
  is_nil_slice (GetPodPullSecrets None) = true.
Proof. split; [discriminate | reflexivity]. Qed.

(** C6, as amended.  Without a secret the projection is the nil slice,
    of length zero; with a secret it is the one-element list holding
    exactly that reference. *)
Theorem GetPodPullSecrets_projection :
  GetPodPullSecrets None = nil_slice ∧
  len (GetPodPullSecrets None) = 0 ∧
  ∀ secret : LocalObjectReference,
    GetPodPullSecrets (Some secret) = mk_slice [secret].
Proof. repeat split. Qed.

(** ** Workload generators *)

(** C7.  [SetDriverContainerAsDesired] returns an error, does not
    panic and leaves the target as it was when the target is nil, the
    image is empty or the kernel version is empty;
    [SetDevicePluginAsDesired] does so when the target is nil or the
    module has no device-plugin section. *)
Theorem generators_reject_invalid_input
    `{Constants} {C S : Type} `{!ControllerUtil S}
    (dc : daemonSetGenerator C S) :
  (∀ (ds : option DaemonSet) (image : string) (kmod : Module)
     (kernelVersion : string),
     ds = None ∨ image = "" ∨ kernelVersion = "" →
     ∃ e, SetDriverContainerAsDesired dc ds image kmod kernelVersion
          = (Err e, ds)) ∧
  (∀ kmod : option Module,
     ∃ e, SetDevicePluginAsDesired dc None kmod = (Err e, None)) ∧
  (∀ (ds : option DaemonSet) (kmod : Module),
     DevicePlugin (mod_Spec kmod) = None →
     ∃ e, SetDevicePluginAsDesired dc ds (Some kmod) = (Err e, ds)).
Proof.
  split; [|split].
  - intros ds image kmod kernelVersion Hbad.
    unfold SetDriverContainerAsDesired.
    destruct ds as [d|]; [|by eexists].
    case_bool_decide as Himage; [by eexists|].
    case_bool_decide as Hkernel; [by eexists|].
    by destruct Hbad as [?|[?|?]].
  - intros kmod. by eexists.
  - intros ds kmod Hnone. unfold SetDevicePluginAsDesired.
    destruct ds as [d|]; [|by eexists].
    rewrite Hnone. by eexists.
Qed.

Lemma generators_reject_invalid_input_witness :
  let dc := sample_generator [] in
  let d := sample_DaemonSet "ds-a" ∅ in
  (∃ e, SetDriverContainerAsDesired dc (Some d) "" (sample_Module "mod-a" None) "5.14"
        = (Err e, Some d)) ∧
  (∃ e, SetDriverContainerAsDesired dc (Some d) "image:1" (sample_Module "mod-a" None) ""
        = (Err e, Some d)) ∧
  (∃ e, SetDriverContainerAsDesired dc None "image:1" (sample_Module "mod-a" None) "5.14"
        = (Err e, None)) ∧
  (∃ e, SetDevicePluginAsDesired dc (Some d) (Some (sample_Module "mod-a" None))
        = (Err e, Some d)).
Proof.
  intros dc d.
  destruct (generators_reject_invalid_input dc) as (Hdriver & _ & Hplugin).
  repeat split.
  - apply Hdriver. right. left. reflexivity.
  - apply Hdriver. right. right. reflexivity.
  - apply Hdriver. left. reflexivity.
  - apply Hplugin. reflexivity.
Defined.

(** Outside the cases of C7: a nil module with a non-nil target is
    dereferenced. *)
Example SetDevicePluginAsDesired_nil_module :
  let d := sample_DaemonSet "ds-a" ∅ in
  SetDevicePluginAsDesired (sample_generator []) (Some d) None = (Panic, Some d).
Proof. reflexivity. Qed.

(** With valid input the module loader is generated: the target gets
    the standard labels and the module as its owner. *)
Example SetDriverContainerAsDesired_valid_input :
  let run := SetDriverContainerAsDesired (sample_generator [])
               (Some (sample_DaemonSet "ds-a" {[ "app" := "x" ]})) "image:1"
               (sample_Module "mod-a" None) "5.14" in
  run.1 = Ok () ∧
  (GetLabels <$> run.2)
  = Some {[ "app" := "x";
            "kmm.node.kubernetes.io/module.name" := "mod-a";
            sample_kernelLabel := "5.14";
            "kmm.node.kubernetes.io/role" := "module-loader" ]} ∧
  ((λ d, NodeSelector (tpl_Spec (Template (ds_Spec d)))) <$> run.2)
  = Some {[ sample_kernelLabel := "5.14" ]}.
Proof. vm_compute. repeat split. Qed.

(** C9.  For a module with a device-plugin section and a non-nil
    target, the workload left by [SetDevicePluginAsDesired] has a pod
    node selector with exactly one key, the driver readiness label
    [kmm.node.kubernetes.io/<moduleName>.ready], bound to the empty
    string. *)
Theorem SetDevicePluginAsDesired_node_selector
    `{Constants} {C S : Type} `{!ControllerUtil S}
    (dc : daemonSetGenerator C S) (d : DaemonSet) (kmod : Module)
    (devicePlugin : DevicePluginSpec) :
  DevicePlugin (mod_Spec kmod) = Some devicePlugin →
  ∃ (res : result unit) (d' : DaemonSet),
    SetDevicePluginAsDesired dc (Some d) (Some kmod) = (res, Some d') ∧
    (res = Ok () ∨ ∃ e, res = Err e) ∧
    let nodeSelector := NodeSelector (tpl_Spec (Template (ds_Spec d'))) in
    let ready := "kmm.node.kubernetes.io/" +:+ mod_Name kmod +:+ ".ready" in
    nodeSelector = {[ ready := "" ]} ∧
    dom nodeSelector = {[ ready ]} ∧
    size nodeSelector = 1 ∧
    nodeSelector !! ready = Some "".
Proof.
  intros Hdp. unfold SetDevicePluginAsDesired. rewrite Hdp.
  destruct (SetControllerReference _ _ _) as [err refs] eqn:Href.
  eexists _, _. split; [reflexivity|].
  split; [destruct err; eauto|].
  simpl. unfold getDriverContainerNodeLabel.
  split; [done|]. split; [apply dom_singleton_L|].
  split; [apply map_size_singleton | apply lookup_singleton_eq].
Qed.

Lemma SetDevicePluginAsDesired_node_selector_witness :
  ∃ d' : DaemonSet,
    SetDevicePluginAsDesired (sample_generator []) (Some (sample_DaemonSet "ds-a" ∅))
      (Some (sample_Module "mod-a" (Some sample_DevicePlugin)))
    = (Ok (), Some d') ∧
    NodeSelector (tpl_Spec (Template (ds_Spec d')))
    = {[ "kmm.node.kubernetes.io/mod-a.ready" := "" ]}.
Proof.
  destruct (SetDevicePluginAsDesired_node_selector (sample_generator [])
              (sample_DaemonSet "ds-a" ∅)
              (sample_Module "mod-a" (Some sample_DevicePlugin))
              sample_DevicePlugin eq_refl)
    as (res & d' & Hrun & _ & Hsel & _).
  exists d'. split; [|exact Hsel].
  rewrite Hrun. f_equal.
  unfold SetDevicePluginAsDesired in Hrun. simpl in Hrun.
  by injection Hrun as <- _.
Defined.

(** ** Lookup *)

Section lookup.
Context `{Constants} {C S : Type} `{!Client C}.
Implicit Types (dc : daemonSetGenerator C S) (dsList : list DaemonSet).
Implicit Types (acc : gmap string (option DaemonSet)).

Lemma no_nil_empty : no_nil ∅.
Proof. intros k. by rewrite lookup_empty. Qed.

Lemma no_nil_insert acc k d : no_nil acc → no_nil (<[k := Some d]> acc).
Proof.
  intros Hacc k'. destruct (decide (k = k')) as [->|Hne].
  - by rewrite lookup_insert_eq.
  - rewrite lookup_insert_ne by done. apply Hacc.
Qed.

(** The loop succeeds on items with pairwise distinct kernel versions,
    none of them indexed yet, and binds each to its kernel version. *)
Lemma index_by_kernel_version_Ok dc dsList acc :
  NoDup (kernel_version_of dc <$> dsList) →
  (∀ ds, ds ∈ dsList → acc !! kernel_version_of dc ds = None) →
  ∃ m, index_by_kernel_version dc dsList acc = Ok m ∧
       ∀ k v, m !! k = Some v ↔
              acc !! k = Some v ∨
              ∃ ds, ds ∈ dsList ∧ kernel_version_of dc ds = k ∧ v = Some ds.
Proof.
  revert acc. induction dsList as [|ds rest IH]; intros acc Hnodup Hfresh.
  - exists acc. split; [done|]. intros k v. split; [by left|].
    intros [?|(ds & Hin & _)]; [done|]. by apply elem_of_nil in Hin.
  - rewrite fmap_cons in Hnodup. apply NoDup_cons in Hnodup as [Hhead Hrest].
    simpl. fold (kernel_version_of dc ds).
    rewrite (Hfresh ds) by constructor.
    destruct (IH (<[kernel_version_of dc ds := Some ds]> acc) Hrest)
      as (m & Hrun & Hm).
    { intros ds' Hin. rewrite lookup_insert_ne; [apply Hfresh; by constructor|].
      intros Heq. apply Hhead. rewrite Heq.
      apply list_elem_of_fmap. by exists ds'. }
    exists m. split; [done|]. intros k v. rewrite Hm. split.
    + intros [Hins|(ds' & Hin & Hk & Hv)].
      * destruct (decide (kernel_version_of dc ds = k)) as [Hk|Hk].
        -- subst k. rewrite lookup_insert_eq in Hins. right. exists ds.
           split; [constructor|]. split; congruence.
        -- rewrite lookup_insert_ne in Hins by done. by left.
      * right. exists ds'. split; [by constructor | done].
    + intros [Hacc|(ds' & Hin & Hk & Hv)].
      * left. rewrite lookup_insert_ne; [done|]. intros Heq.
        rewrite <- Heq, (Hfresh ds) in Hacc by constructor. done.
      * apply elem_of_cons in Hin as [->|Hin].
        -- left. subst k v. by rewrite lookup_insert_eq.
        -- right. by exists ds'.
Qed.

(** The loop fails as soon as an item carries a kernel version that is
    indexed already, be it from the start or by an earlier item. *)
Lemma index_by_kernel_version_Err dc dsList acc :
  no_nil acc →
  ¬ NoDup (kernel_version_of dc <$> dsList) ∨
    (∃ ds, ds ∈ dsList ∧ acc !! kernel_version_of dc ds ≠ None) →
  ∃ k, index_by_kernel_version dc dsList acc = Err (multiple_found k).
Proof.
  revert acc. induction dsList as [|ds rest IH]; intros acc Hacc Hdup.
  - destruct Hdup as [Hdup|(ds & Hin & _)].
    + destruct Hdup. constructor.
    + by apply elem_of_nil in Hin.
  - simpl. fold (kernel_version_of dc ds).
    destruct (acc !! kernel_version_of dc ds) as [[d0|]|] eqn:Hlook.
    + by eexists.
    + by destruct (Hacc (kernel_version_of dc ds)).
    + apply IH; [by apply no_nil_insert|].
      destruct (decide (kernel_version_of dc ds ∈ kernel_version_of dc <$> rest))
        as [Hin|Hnotin].
      * right. apply list_elem_of_fmap in Hin as (ds' & Heq & Hin).
        exists ds'. split; [done|]. by rewrite <- Heq, lookup_insert_eq.
      * destruct Hdup as [Hdup|(ds' & Hin & Hsome)].
        -- left. intros Hrest. apply Hdup. rewrite fmap_cons.
           by apply NoDup_cons.
        -- apply elem_of_cons in Hin as [->|Hin]; [done|].
           right. exists ds'. split; [done|].
           destruct (decide (kernel_version_of dc ds = kernel_version_of dc ds'))
             as [Heq|Hne].
           ++ by rewrite <- Heq, lookup_insert_eq.
           ++ by rewrite lookup_insert_ne.
Qed.

(** Two positions with the same kernel version make the list of
    kernel versions repeat itself. *)
Lemma shared_kernel_version_not_NoDup dc dsList (i j : nat) (a b : DaemonSet) :
  i ≠ j → dsList !! i = Some a → dsList !! j = Some b →
  kernel_version_of dc a = kernel_version_of dc b →
  ¬ NoDup (kernel_version_of dc <$> dsList).
Proof.
  intros Hij Ha Hb Heq Hnodup. apply Hij.
  eapply NoDup_lookup; [exact Hnodup | |].
  - rewrite list_lookup_fmap, Ha. reflexivity.
  - rewrite list_lookup_fmap, Hb. simpl. by rewrite Heq.
Qed.

(** C2.  When the store lists the workloads [dsList] of a module:
    if two of them carry the same value under the kernel-version
    label (a missing label reads as the empty string),
    [ModuleDaemonSetsByKernelVersion] returns the error of this case
    and no mapping; if no two do, it returns the mapping that binds
    each kernel-version value to the workload that carries it, and
    nothing else. *)
Theorem ModuleDaemonSetsByKernelVersion_rejects_duplicates
    dc (name namespace : string) dsList :
  client_List (client dc)
    [MatchingLabels {[ ModuleNameLabel := name ]}; InNamespace namespace]
  = (None, dsList) →
  ((∃ (i j : nat) (a b : DaemonSet),
      i ≠ j ∧ dsList !! i = Some a ∧ dsList !! j = Some b ∧
      kernel_version_of dc a = kernel_version_of dc b) →
   ∃ k, ModuleDaemonSetsByKernelVersion dc name namespace
        = Err (multiple_found k)) ∧
  (NoDup (kernel_version_of dc <$> dsList) →
   ∃ m, ModuleDaemonSetsByKernelVersion dc name namespace = Ok m ∧
        ∀ k v, m !! k = Some v ↔
               ∃ ds, ds ∈ dsList ∧ kernel_version_of dc ds = k ∧ v = Some ds).
Proof.
  intros Hlist.
  unfold ModuleDaemonSetsByKernelVersion, moduleDaemonSets. rewrite Hlist.
  split.
  - intros (i & j & a & b & Hij & Ha & Hb & Heq).
    apply index_by_kernel_version_Err; [apply no_nil_empty|].
    left. by eapply shared_kernel_version_not_NoDup.
  - intros Hnodup.
    destruct (index_by_kernel_version_Ok dc dsList ∅ Hnodup) as (m & Hrun & Hm).
    { intros ds _. apply lookup_empty. }
    exists m. split; [done|]. intros k v. rewrite Hm, lookup_empty.
    split; [intros [?|?]; done | by right].
Qed.

End lookup.

Lemma ModuleDaemonSetsByKernelVersion_rejects_duplicates_witness :
  let a := sample_loader "ds-a" "5.10" in
  let b := sample_loader "ds-b" "5.10" in
  let c := sample_loader "ds-c" "5.14" in
  (∃ k, ModuleDaemonSetsByKernelVersion (sample_generator [a; b]) "mod-a" "ns"
        = Err (multiple_found k)) ∧
  (∃ m, ModuleDaemonSetsByKernelVersion (sample_generator [a; c]) "mod-a" "ns"
        = Ok m ∧
        ∀ k v, m !! k = Some v ↔
               ∃ ds, ds ∈ [a; c] ∧
                     kernel_version_of (sample_generator [a; c]) ds = k ∧
                     v = Some ds).
Proof.
  intros a b c. split.
  - eapply (ModuleDaemonSetsByKernelVersion_rejects_duplicates
              (sample_generator [a; b]) "mod-a" "ns" [a; b]); [reflexivity|].
    exists 0, 1, a, b. repeat split. discriminate.
  - eapply (ModuleDaemonSetsByKernelVersion_rejects_duplicates
              (sample_generator [a; c]) "mod-a" "ns" [a; c]); [reflexivity|].
    apply (bool_decide_unpack _). vm_compute. exact I.
Defined.

Example ModuleDaemonSetsByKernelVersion_duplicate_kernel :
  ModuleDaemonSetsByKernelVersion
    (sample_generator [sample_loader "ds-a" "5.10"; sample_loader "ds-c" "5.14";
                       sample_loader "ds-b" "5.10"]) "mod-a" "ns"
  = Err (multiple_found "5.10").
Proof. vm_compute. reflexivity. Qed.

Example ModuleDaemonSetsByKernelVersion_list_fails :
  ∀ (C S : Type) (failing : Client C) (dc : daemonSetGenerator C S) (e : error)
    (items : list DaemonSet) (name namespace : string),
    client_List (client dc)
      [MatchingLabels {[ ModuleNameLabel := name ]}; InNamespace namespace]
    = (Some e, items) →
    ModuleDaemonSetsByKernelVersion dc name namespace
    = Err (could_not_get_all (could_not_list e)).
Proof.
  intros C S failing dc e items name namespace Hlist.
  unfold ModuleDaemonSetsByKernelVersion, moduleDaemonSets. by rewrite Hlist.
Qed.

(** ** Garbage collection *)

Lemma gc_targets_cons_Some {C S} (dc : daemonSetGenerator C S)
    (validKernels : gset string) (k : string) (d : DaemonSet)
    (rest : list (string * option DaemonSet)) :
  gc_targets dc validKernels ((k, Some d) :: rest)
  = if bool_decide (kernel_version_of dc d ≠ "" ∧ k ∉ validKernels)
    then d :: gc_targets dc validKernels rest
    else gc_targets dc validKernels rest.
Proof. unfold gc_targets. simpl. by case_bool_decide. Qed.

Lemma gc_targets_cons_None {C S} (dc : daemonSetGenerator C S)
    (validKernels : gset string) (k : string)
    (rest : list (string * option DaemonSet)) :
  gc_targets dc validKernels ((k, None) :: rest) = gc_targets dc validKernels rest.
Proof. reflexivity. Qed.

(** Every target has a non-empty kernel-version label. *)
Lemma gc_targets_labelled {C S} (dc : daemonSetGenerator C S)
    (validKernels : gset string) (entries : list (string * option DaemonSet))
    (d : DaemonSet) :
  d ∈ gc_targets dc validKernels entries →
  kernel_version_of dc d ≠ "" ∧
  ∃ k, (k, Some d) ∈ entries ∧ k ∉ validKernels.
Proof.
  unfold gc_targets. rewrite list_elem_of_omap.
  intros ([k [d0|]] & Hin & Hsome); simpl in Hsome; [|done].
  case_bool_decide as Hcond; [|done].
  injection Hsome as ->. split; [tauto|]. exists k. tauto.
Qed.

Lemma gc_targets_elem {C S} (dc : daemonSetGenerator C S)
    (validKernels : gset string) (entries : list (string * option DaemonSet))
    (k : string) (d : DaemonSet) :
  (k, Some d) ∈ entries → kernel_version_of dc d ≠ "" → k ∉ validKernels →
  d ∈ gc_targets dc validKernels entries.
Proof.
  intros Hin Hlabel Hkey. unfold gc_targets. apply list_elem_of_omap.
  exists (k, Some d). split; [done|]. simpl. by rewrite bool_decide_true.
Qed.

(** Filtering the entries of a map, before or after listing them. *)
Lemma map_to_list_filter_Permutation {A} (P : string * A → Prop)
    `{!∀ x, Decision (P x)} (m : gmap string A) :
  filter P (map_to_list m) ≡ₚ map_to_list (filter P m).
Proof.
  apply NoDup_Permutation.
  - apply NoDup_filter, NoDup_map_to_list.
  - apply NoDup_map_to_list.
  - intros [k v].
    rewrite list_elem_of_filter, !elem_of_map_to_list, map_lookup_filter_Some.
    tauto.
Qed.

Section garbage_collection.
Context {C S : Type} `{!Client C}.
Implicit Types (dc : daemonSetGenerator C S) (validKernels : gset string).
Implicit Types (entries : list (string * option DaemonSet)) (st : @gc_state C).

(** One round of the loop on a non-nil entry. *)
Lemma GarbageCollect_range_cons_Some dc k d entries validKernels st :
  GarbageCollect_range dc ((k, Some d) :: entries) validKernels st
  = if bool_decide (kernel_version_of dc d ≠ "" ∧ k ∉ validKernels)
    then
      match client_Delete (gc_client st) d with
      | (Some e, c) =>
          (Err (could_not_delete (ds_Name d) e),
           {| gc_client := c; gc_deleted := gc_deleted st;
              gc_calls := gc_calls st ++ [d] |})
      | (None, c) =>
          GarbageCollect_range dc entries validKernels
            {| gc_client := c; gc_deleted := gc_deleted st ++ [ds_Name d];
               gc_calls := gc_calls st ++ [d] |}
      end
    else GarbageCollect_range dc entries validKernels st.
Proof.
  simpl. unfold kernel_version_of, ds_Name.
  destruct (client_Delete (gc_client st) d) as [[e|] c];
    repeat case_bool_decide; simpl; try done; tauto.
Qed.

(** Whatever the outcome, the calls issued are an initial part of the
    targets. *)
Lemma GarbageCollect_range_calls dc entries validKernels st res st' :
  GarbageCollect_range dc entries validKernels st = (res, st') →
  ∃ calls, gc_calls st' = gc_calls st ++ calls ∧
           calls `prefix_of` gc_targets dc validKernels entries.
Proof.
  revert st. induction entries as [|[k [d|]] rest IH]; intros st Hrun.
  - injection Hrun as _ <-. exists []. by rewrite app_nil_r.
  - rewrite GarbageCollect_range_cons_Some in Hrun.
    rewrite gc_targets_cons_Some.
    case_bool_decide as Hcond; [|by apply IH].
    destruct (client_Delete (gc_client st) d) as [[e|] c].
    + injection Hrun as _ <-. exists [d]. split; [done|].
      by apply prefix_cons, prefix_nil.
    + apply IH in Hrun as (calls & Hcalls & Hprefix). simpl in Hcalls.
      exists (d :: calls). split; [by rewrite Hcalls, <- app_assoc|].
      by apply prefix_cons.
  - injection Hrun as _ <-. exists []. split; [by rewrite app_nil_r|].
    apply prefix_nil.
Qed.

(** A run that succeeds met no nil entry, called [client.Delete] on
    the targets, one after the other, and returns their names. *)
Lemma GarbageCollect_range_Ok dc entries validKernels st names st' :
  GarbageCollect_range dc entries validKernels st = (Ok names, st') →
  let targets := gc_targets dc validKernels entries in
  (∀ k, (k, None) ∉ entries) ∧
  gc_calls st' = gc_calls st ++ targets ∧
  names = gc_deleted st ++ (ds_Name <$> targets) ∧
  gc_deleted st' = names ∧
  gc_client st' = foldl (λ c d, (client_Delete c d).2) (gc_client st) targets.
Proof.
  revert st. induction entries as [|[k [d|]] rest IH]; intros st Hrun targets.
  - injection Hrun as <- <-. subst targets. simpl.
    rewrite !app_nil_r. repeat split. intros k. apply not_elem_of_nil.
  - rewrite GarbageCollect_range_cons_Some in Hrun. subst targets.
    rewrite gc_targets_cons_Some.
    assert (∀ k', (k', None) ∉ rest →
                 (k', @None DaemonSet) ∉ (k, Some d) :: rest) as Hnil.
    { intros k' Hrest [Heq|Hin]%elem_of_cons; [done | by apply Hrest]. }
    case_bool_decide as Hcond.
    + destruct (client_Delete (gc_client st) d) as [[e|] c] eqn:Hdel; [done|].
      apply IH in Hrun as (Hnonil & Hcalls & Hnames & Hdeleted & Hclient).
      simpl in *. rewrite Hdel. rewrite <- !app_assoc in *.
      repeat split; try done.
      intros k'. apply Hnil, Hnonil.
    + apply IH in Hrun as (Hnonil & Hrest).
      split; [|done]. intros k'. apply Hnil, Hnonil.
  - done.
Qed.

(** When no entry is nil and no call of [client.Delete] fails, the
    run succeeds. *)
Lemma GarbageCollect_range_succeeds dc entries validKernels st :
  (∀ k, (k, None) ∉ entries) →
  (∀ c d, (client_Delete c d).1 = None) →
  ∃ names st', GarbageCollect_range dc entries validKernels st = (Ok names, st').
Proof.
  intros Hnonil Hdelete. revert st Hnonil.
  induction entries as [|[k [d|]] rest IH]; intros st Hnonil.
  - by eexists _, _.
  - rewrite GarbageCollect_range_cons_Some.
    assert (∀ k', (k', None) ∉ rest) as Hrest.
    { intros k' Hin. apply (Hnonil k'). by constructor. }
    case_bool_decide; [|by apply IH].
    specialize (Hdelete (gc_client st) d).
    destruct (client_Delete (gc_client st) d) as [err c]. simpl in Hdelete.
    subst err. by apply IH.
  - destruct (Hnonil k). constructor.
Qed.

Lemma delete_each_app (c : C) (l1 l2 : list DaemonSet) :
  delete_each c (l1 ++ l2) = delete_each c l1 ≫= λ c', delete_each c' l2.
Proof.
  revert c. induction l1 as [|d l1 IH]; intros c; [done|]. simpl.
  by destruct (client_Delete c d) as [[e|] c'].
Qed.

Lemma delete_each_app_Some (c c'' : C) (l1 l2 : list DaemonSet) :
  delete_each c (l1 ++ l2) = Some c'' →
  ∃ c', delete_each c l1 = Some c' ∧ delete_each c' l2 = Some c''.
Proof.
  rewrite delete_each_app. destruct (delete_each c l1) as [c'|]; [|done].
  intros Hrest. by exists c'.
Qed.

(** The store is changed by the calls of the run and by nothing else:
    whatever the outcome, it is the store of the start after the calls
    logged, one after the other. *)
Lemma GarbageCollect_range_store dc entries validKernels st res st' :
  GarbageCollect_range dc entries validKernels st = (res, st') →
  ∃ calls, gc_calls st' = gc_calls st ++ calls ∧
           gc_client st'
           = foldl (λ c d, (client_Delete c d).2) (gc_client st) calls.
Proof.
  revert st. induction entries as [|[k [d|]] rest IH]; intros st Hrun.
  - injection Hrun as _ <-. exists []. by rewrite app_nil_r.
  - rewrite GarbageCollect_range_cons_Some in Hrun.
    case_bool_decide as Hcond; [|by apply IH].
    destruct (client_Delete (gc_client st) d) as [[e|] c] eqn:Hdelete.
    + injection Hrun as _ <-. exists [d]. simpl. by rewrite Hdelete.
    + apply IH in Hrun as (calls & Hcalls & Hclient). simpl in Hcalls, Hclient.
      exists (d :: calls). simpl. rewrite Hdelete. simpl.
      split; [by rewrite Hcalls, <- app_assoc | done].
  - injection Hrun as _ <-. exists []. by rewrite app_nil_r.
Qed.

(** A run that succeeds has deleted the targets: the store it leaves
    is the store of the start after [client.Delete] on each target in
    turn, and each of these calls returned no error. *)
Lemma GarbageCollect_range_Ok_store dc entries validKernels st names st' :
  GarbageCollect_range dc entries validKernels st = (Ok names, st') →
  delete_each (gc_client st) (gc_targets dc validKernels entries)
  = Some (gc_client st').
Proof.
  revert st. induction entries as [|[k [d|]] rest IH]; intros st Hrun.
  - by injection Hrun as _ <-.
  - rewrite GarbageCollect_range_cons_Some in Hrun.
    rewrite gc_targets_cons_Some.
    case_bool_decide as Hcond; [|by apply IH]. simpl.
    destruct (client_Delete (gc_client st) d) as [[e|] c]; [done|].
    by apply IH in Hrun.
  - done.
Qed.

(** C10.  Whatever the outcome of [GarbageCollect], the store is
    changed by the calls of [client.Delete] that the run makes and by
    nothing else, and a workload that carries the empty string under
    the kernel-version label is never handed to [client.Delete],
    whatever key it is indexed under, be the key non-empty and outside
    [validKernels].  When the run succeeds the workloads deleted are
    those with a non-empty label whose key is outside [validKernels],
    each by a call of [client.Delete] that returned no error; so a
    workload with a non-empty label under the empty key is deleted
    from the store, after the workloads visited before it and before
    those visited later, and named in the result, when the empty
    string is not a valid kernel. *)
Theorem GarbageCollect_classifies_by_label dc entries validKernels res st' :
  GarbageCollect dc entries validKernels = (res, st') →
  gc_client st'
  = foldl (λ c d, (client_Delete c d).2) (client dc) (gc_calls st') ∧
  (∀ k d, (k, Some d) ∈ entries → kernel_version_of dc d = "" →
          d ∉ gc_calls st') ∧
  (∀ names, res = Ok names →
     gc_calls st' = gc_targets dc validKernels entries ∧
     delete_each (client dc) (gc_calls st') = Some (gc_client st') ∧
     names = ds_Name <$> gc_calls st' ∧
     ∀ d, ("", Some d) ∈ entries → kernel_version_of dc d ≠ "" →
          "" ∉ validKernels →
          ds_Name d ∈ names ∧
          ∃ (earlier later : list DaemonSet) (c c' : C),
            gc_calls st' = earlier ++ d :: later ∧
            delete_each (client dc) earlier = Some c ∧
            client_Delete c d = (None, c') ∧
            delete_each c' later = Some (gc_client st')).
Proof.
  unfold GarbageCollect. intros Hrun. split; [|split].
  - apply GarbageCollect_range_store in Hrun as (calls & Hcalls & Hclient).
    simpl in Hcalls, Hclient. by rewrite Hcalls.
  - intros k d _ Hlabel Hin.
    apply GarbageCollect_range_calls in Hrun as (calls & Hcalls & Hprefix).
    simpl in Hcalls. rewrite Hcalls in Hin.
    destruct Hprefix as [rest Hrest].
    assert (d ∈ gc_targets dc validKernels entries) as Htarget.
    { rewrite Hrest. apply elem_of_app. by left. }
    by apply gc_targets_labelled in Htarget as [Hne _].
  - intros names ->.
    pose proof (GarbageCollect_range_Ok_store _ _ _ _ _ _ Hrun) as Hstore.
    apply GarbageCollect_range_Ok in Hrun as (_ & Hcalls & Hnames & _).
    simpl in Hcalls, Hnames, Hstore. rewrite Hcalls.
    split; [done|]. split; [done|]. split; [done|].
    intros d Hin Hlabel Hvalid.
    assert (d ∈ gc_targets dc validKernels entries) as Htarget
      by by eapply gc_targets_elem.
    split; [rewrite Hnames; apply list_elem_of_fmap; by exists d|].
    destruct (list_elem_of_split _ _ Htarget) as (earlier & later & Hsplit).
    rewrite Hsplit in Hstore.
    apply delete_each_app_Some in Hstore as (c & Hearlier & Hrest).
    simpl in Hrest.
    destruct (client_Delete c d) as [[e|] c'] eqn:Hdelete; [done|].
    by exists earlier, later, c, c'.
Qed.

(** When an entry has the empty key exactly when its workload has an
    empty kernel-version label, the targets are the workloads of the
    entries with a stale key. *)
Lemma gc_targets_by_sentinel dc entries validKernels :
  (∀ k, (k, None) ∉ entries) →
  (∀ k d, (k, Some d) ∈ entries → kernel_version_of dc d = "" ↔ k = "") →
  Some <$> gc_targets dc validKernels entries
  = (filter (stale_key validKernels) entries).*2.
Proof.
  induction entries as [|[k [d|]] rest IH]; intros Hnonil Hkeys; [done| |].
  - rewrite gc_targets_cons_Some, filter_cons.
    pose proof (Hkeys k d (list_elem_of_here _ _)) as Hsentinel.
    assert (Some <$> gc_targets dc validKernels rest
            = (filter (stale_key validKernels) rest).*2) as Hrest.
    { apply IH.
      - intros k' Hin. apply (Hnonil k'). by constructor.
      - intros k' d' Hin. apply Hkeys. by constructor. }
    unfold stale_key at 1, devicePluginKernelVersion. simpl.
    case_bool_decide as Hcond; case_decide as Hstale; try tauto.
    rewrite !fmap_cons. by f_equal.
  - destruct (Hnonil k). constructor.
Qed.

(** When every key is the kernel-version label of its workload, the
    targets are the workloads of the entries with a stale key. *)
Lemma gc_targets_by_key dc entries validKernels :
  (∀ k, (k, None) ∉ entries) →
  (∀ k d, (k, Some d) ∈ entries → kernel_version_of dc d = k) →
  Some <$> gc_targets dc validKernels entries
  = (filter (stale_key validKernels) entries).*2.
Proof.
  induction entries as [|[k [d|]] rest IH]; intros Hnonil Hkeys; [done| |].
  - rewrite gc_targets_cons_Some, filter_cons.
    rewrite (Hkeys k d) by constructor.
    assert (Some <$> gc_targets dc validKernels rest
            = (filter (stale_key validKernels) rest).*2) as Hrest.
    { apply IH.
      - intros k' Hin. apply (Hnonil k'). by constructor.
      - intros k' d' Hin. apply Hkeys. by constructor. }
    unfold stale_key at 1, devicePluginKernelVersion. simpl.
    case_bool_decide as Hcond; case_decide as Hstale; try tauto.
    rewrite !fmap_cons. by f_equal.
  - destruct (Hnonil k). constructor.
Qed.

(** C1, as amended.  For a map in which an entry has the empty key
    exactly when its workload has an empty kernel-version label (as in
    every map that [ModuleDaemonSetsByKernelVersion] builds), visited
    in any order: when [GarbageCollect] succeeds it has deleted the
    workloads of the entries whose key is neither the empty string nor
    in [validKernels], and no other: the store it leaves is the store
    of the start after [client.Delete] on each of them in turn, every
    call without an error; the names returned are their names, in the
    order of the calls; and the workload under the empty key is not
    among them. *)
Theorem GarbageCollect_deletes_stale_kernels dc
    (existingDS : gmap string (option DaemonSet)) entries validKernels
    names st' :
  entries ≡ₚ map_to_list existingDS →
  (∀ k d, existingDS !! k = Some (Some d) →
          kernel_version_of dc d = "" ↔ k = "") →
  GarbageCollect dc entries validKernels = (Ok names, st') →
  ∃ deleted : list DaemonSet,
    Some <$> deleted = (filter (stale_key validKernels) entries).*2 ∧
    filter (stale_key validKernels) entries
      ≡ₚ map_to_list (filter (stale_key validKernels) existingDS) ∧
    delete_each (client dc) deleted = Some (gc_client st') ∧
    gc_calls st' = deleted ∧
    names = ds_Name <$> deleted ∧
    (∀ d, existingDS !! "" = Some (Some d) → d ∉ deleted).
Proof.
  intros Hperm Hkeys Hrun. unfold GarbageCollect in Hrun.
  pose proof (GarbageCollect_range_Ok_store _ _ _ _ _ _ Hrun) as Hstore.
  apply GarbageCollect_range_Ok in Hrun as (Hnonil & Hcalls & Hnames & _).
  simpl in Hcalls, Hnames, Hstore.
  assert (∀ k d, (k, Some d) ∈ entries →
                 kernel_version_of dc d = "" ↔ k = "") as Hkeys'.
  { intros k d Hin. apply Hkeys. apply elem_of_map_to_list.
    by rewrite <- Hperm. }
  exists (gc_targets dc validKernels entries).
  split; [by apply gc_targets_by_sentinel|].
  split; [by rewrite Hperm, map_to_list_filter_Permutation|].
  split; [done|]. split; [done|]. split; [done|].
  intros d Hd Hin. apply gc_targets_labelled in Hin as [Hlabel _].
  by apply Hlabel, (Hkeys "" d Hd).
Qed.

End garbage_collection.

Lemma GarbageCollect_classifies_by_label_witness :
  let plugin := sample_DaemonSet "plugin" ∅ in
  let loader := sample_loader "loader" "5.10" in
  let entries := [("5.10", Some plugin); ("", Some loader)] in
  let run := GarbageCollect (sample_generator [plugin; loader]) entries {[ "5.14" ]} in
  run.1 = Ok ["loader"] ∧
  (plugin ∉ gc_calls run.2) ∧
  ds_Name loader ∈ ["loader"] ∧
  delete_each [plugin; loader] (gc_calls run.2) = Some (gc_client run.2) ∧
  gc_client run.2 = [plugin] ∧
  ∃ (earlier later : list DaemonSet) (c c' : list DaemonSet),
    gc_calls run.2 = earlier ++ loader :: later ∧
    delete_each [plugin; loader] earlier = Some c ∧
    client_Delete c loader = (None, c') ∧
    delete_each c' later = Some (gc_client run.2).
Proof.
  intros plugin loader entries run.
  assert (run.1 = Ok ["loader"]) as Hres by (vm_compute; reflexivity).
  destruct (GarbageCollect_classifies_by_label (sample_generator [plugin; loader])
              entries {[ "5.14" ]} run.1 run.2 (surjective_pairing run))
    as (_ & Hnever & Hdeleted).
  split; [exact Hres|]. split.
  - apply (Hnever "5.10" plugin); [constructor | reflexivity].
  - destruct (Hdeleted ["loader"] Hres) as (_ & Hstore & _ & Hloader).
    destruct (Hloader loader) as [Hname Hcall].
    + apply list_elem_of_further, list_elem_of_here.
    + vm_compute. discriminate.
    + apply not_elem_of_singleton. discriminate.
    + split; [exact Hname|]. split; [exact Hstore|].
      split; [vm_compute; reflexivity | exact Hcall].
Defined.

Lemma GarbageCollect_deletes_stale_kernels_witness :
  let ds1 := sample_loader "ds1-name" "5.11" in
  let ds2 := sample_DaemonSet "ds2-name" ∅ in
  let existingDS : gmap string (option DaemonSet) :=
    {[ "5.10" := Some ds1; "" := Some ds2 ]} in
  let run := GarbageCollect (sample_generator [ds1; ds2])
               (map_to_list existingDS) {[ "5.14" ]} in
  run.1 = Ok ["ds1-name"] ∧
  ∃ deleted : list DaemonSet,
    Some <$> deleted = [Some ds1] ∧
    [("5.10", Some ds1)]
      ≡ₚ map_to_list (filter (stale_key {[ "5.14" ]}) existingDS) ∧
    delete_each [ds1; ds2] deleted = Some (gc_client run.2) ∧
    gc_client run.2 = [ds2] ∧
    ds2 ∉ deleted.
Proof.
  intros ds1 ds2 existingDS run.
  assert (run.1 = Ok ["ds1-name"]) as Hres by (vm_compute; reflexivity).
  assert (run = (Ok ["ds1-name"], run.2)) as Hrun
    by (rewrite <- Hres; apply surjective_pairing).
  destruct (GarbageCollect_deletes_stale_kernels (sample_generator [ds1; ds2])
              existingDS (map_to_list existingDS) {[ "5.14" ]}
              ["ds1-name"] run.2)
    as (deleted & Hdeleted & Hperm & Hstore & _ & _ & Hplugin).
  - reflexivity.
  - intros k d Hlook. unfold existingDS in Hlook.
    apply lookup_insert_Some in Hlook as [[<- Hd]|[_ Hlook]].
    + injection Hd as <-. split; discriminate.
    + apply lookup_singleton_Some in Hlook as [<- Hd].
      injection Hd as <-. split; reflexivity.
  - exact Hrun.
  - split; [exact Hres|]. exists deleted. split; [|split; [|split; [|split]]].
    + rewrite Hdeleted. vm_compute. reflexivity.
    + rewrite <- Hperm. vm_compute. reflexivity.
    + exact Hstore.
    + vm_compute. reflexivity.
    + apply Hplugin. reflexivity.
Defined.

(** C1, as stated, fails: it is the label of the workload, not the key
    of the entry, that exempts from collection.  The entry under the
    stale key [5.10] stays, for its workload has no kernel-version
    label; the entry under the empty key goes, for its workload has
    one. *)
Lemma GarbageCollect_key_is_not_the_criterion :
  let plugin := sample_DaemonSet "plugin" ∅ in
  let loader := sample_loader "loader" "5.10" in
  let existingDS : gmap string (option DaemonSet) :=
    {[ "5.10" := Some plugin; "" := Some loader ]} in
  let entries := map_to_list existingDS in
  let run := GarbageCollect (sample_generator [plugin; loader]) entries {[ "5.14" ]} in
  run.1 = Ok ["loader"] ∧
  gc_calls run.2 = [loader] ∧
  (filter (stale_key {[ "5.14" ]}) entries).*2 = [Some plugin] ∧
  existingDS !! "" = Some (Some loader) ∧
  Some <$> gc_calls run.2 ≠ (filter (stale_key {[ "5.14" ]}) entries).*2.
Proof.
  intros plugin loader existingDS entries run.
  assert (gc_calls run.2 = [loader]) as Hcalls by (vm_compute; reflexivity).
  assert ((filter (stale_key {[ "5.14" ]}) entries).*2 = [Some plugin]) as Hstale
    by (vm_compute; reflexivity).
  split; [vm_compute; reflexivity|]. split; [exact Hcalls|].
  split; [exact Hstale|]. split; [vm_compute; reflexivity|].
  rewrite Hcalls, Hstale. vm_compute. discriminate.
Qed.

(** The scenario of the specification: the stale loader goes, the
    device plugin stays. *)
Example GarbageCollect_scenario :
  let ds1 := sample_loader "ds1-name" "5.10" in
  let ds2 := sample_DaemonSet "ds2-name" ∅ in
  let run := GarbageCollect (sample_generator [ds1; ds2])
               [("5.10", Some ds1); ("", Some ds2)] {[ "5.14" ]} in
  run.1 = Ok ["ds1-name"] ∧ gc_calls run.2 = [ds1] ∧ gc_client run.2 = [ds2].
Proof. vm_compute. repeat split. Qed.

(** A failing call stops the run: the error names the workload, and
    the earlier deletion stays done. *)
Example GarbageCollect_stops_at_first_failure :
  let ds1 := sample_loader "ds1-name" "5.10" in
  let ds3 := sample_loader "ds3-name" "5.12" in
  let ds4 := sample_loader "ds4-name" "5.13" in
  let run := GarbageCollect (sample_generator [ds1; ds4])
               [("5.10", Some ds1); ("5.12", Some ds3); ("5.13", Some ds4)]
               {[ "5.14" ]} in
  run.1 = Err (could_not_delete "ds3-name" (errors_New "not found")) ∧
  gc_calls run.2 = [ds1; ds3] ∧ gc_client run.2 = [ds4].
Proof. vm_compute. repeat split. Qed.

(** A nil entry makes the run panic. *)
Example GarbageCollect_nil_entry :
  (GarbageCollect (sample_generator []) [("5.10", None)] {[ "5.14" ]}).1 = Panic.
Proof. reflexivity. Qed.


(** * Further properties of the package *)

(** ** Command synthesis, the other inputs *)

Lemma nonempty_args_list (a : option ModprobeArgs)
    (dir : ModprobeArgs → list string) :
  nonempty_args a dir
  = match from_option dir [] a with
    | [] => None
    | x :: l => Some (x :: l)
    end.
Proof.
  destruct a as [a|]; [|done]. simpl.
  destruct (dir a) as [|x l]; [done|].
  rewrite bool_decide_true; [done | simpl; lia].
Qed.

(** The unload command with raw unload arguments. *)
Lemma MakeUnloadCommand_raw (spec : ModprobeSpec) (modName : string)
    (ra : ModprobeArgs) :
  RawArgs spec = Some ra → Unload ra ≠ [] →
  MakeUnloadCommand spec modName
  = ["/bin/sh"; "-c"; "modprobe " +:+ strings_Join (Unload ra) " "].
Proof.
  intros Hra Hne. unfold MakeUnloadCommand.
  by rewrite Hra, nonempty_args_Some.
Qed.

(** With non-empty raw unload arguments the unload command is [modprobe]
    and these arguments, whatever the other fields: a firmware path
    adds no cleanup step to it. *)
Theorem MakeUnloadCommand_raw_args_only
    (spec1 spec2 : ModprobeSpec) (modName1 modName2 : string)
    (ra1 ra2 : ModprobeArgs) :
  RawArgs spec1 = Some ra1 → RawArgs spec2 = Some ra2 →
  Unload ra1 = Unload ra2 → Unload ra1 ≠ [] →
  MakeUnloadCommand spec1 modName1 = MakeUnloadCommand spec2 modName2 ∧
  MakeUnloadCommand spec1 modName1
  = ["/bin/sh"; "-c"; "modprobe " +:+ strings_Join (Unload ra1) " "].
Proof.
  intros H1 H2 Heq Hne.
  rewrite (MakeUnloadCommand_raw spec1 modName1 ra1 H1 Hne).
  rewrite (MakeUnloadCommand_raw spec2 modName2 ra2 H2) by congruence.
  by rewrite Heq.
Qed.

Lemma MakeUnloadCommand_raw_args_only_witness :
  let raw := {| Load := []; Unload := ["-r"; "mod_a"] |} in
  let spec1 := {| ModuleName := "mod_a"; DirName := "/opt"; FirmwarePath := "/fw";
                  Parameters := ["p=1"];
                  Args := Some {| Load := []; Unload := ["-f"] |};
                  RawArgs := Some raw |} in
  let spec2 := {| ModuleName := "other"; DirName := ""; FirmwarePath := "";
                  Parameters := []; Args := None; RawArgs := Some raw |} in
  MakeUnloadCommand spec1 "mod-a" = MakeUnloadCommand spec2 "mod-b" ∧
  MakeUnloadCommand spec1 "mod-a" = ["/bin/sh"; "-c"; "modprobe -r mod_a"].
Proof.
  intros raw spec1 spec2.
  apply (MakeUnloadCommand_raw_args_only spec1 spec2 "mod-a" "mod-b" raw raw);
    [reflexivity | reflexivity | reflexivity | discriminate].
Defined.

(** The load command reads [Args] and [RawArgs] through their load
    lists only: a nil pointer and a pointer to an empty load list are
    the same to it, and the unload lists do not matter. *)
Theorem MakeLoadCommand_reads_load_lists
    (spec1 spec2 : ModprobeSpec) (modName : string) :
  ModuleName spec1 = ModuleName spec2 → DirName spec1 = DirName spec2 →
  FirmwarePath spec1 = FirmwarePath spec2 →
  Parameters spec1 = Parameters spec2 →
  load_list (Args spec1) = load_list (Args spec2) →
  load_list (RawArgs spec1) = load_list (RawArgs spec2) →
  MakeLoadCommand spec1 modName = MakeLoadCommand spec2 modName.
Proof.
  intros Hname Hdir Hfw Hparams Hargs Hraw. unfold MakeLoadCommand.
  rewrite !nonempty_args_list. unfold load_list in Hargs, Hraw.
  by rewrite Hname, Hdir, Hfw, Hparams, Hargs, Hraw.
Qed.

Lemma MakeLoadCommand_reads_load_lists_witness :
  let spec1 := {| ModuleName := "mod_a"; DirName := "/opt"; FirmwarePath := "";
                  Parameters := ["p=1"];
                  Args := Some {| Load := []; Unload := ["-f"] |};
                  RawArgs := Some {| Load := []; Unload := ["-r"; "x"] |} |} in
  let spec2 := {| ModuleName := "mod_a"; DirName := "/opt"; FirmwarePath := "";
                  Parameters := ["p=1"]; Args := None; RawArgs := None |} in
  MakeLoadCommand spec1 "mod-a" = MakeLoadCommand spec2 "mod-a".
Proof.
  intros spec1 spec2.
  apply (MakeLoadCommand_reads_load_lists spec1 spec2 "mod-a"); reflexivity.
Defined.

(** The unload command reads [Args] and [RawArgs] through their unload
    lists only, and never reads [Parameters]. *)
Theorem MakeUnloadCommand_reads_unload_lists
    (spec1 spec2 : ModprobeSpec) (modName : string) :
  ModuleName spec1 = ModuleName spec2 → DirName spec1 = DirName spec2 →
  FirmwarePath spec1 = FirmwarePath spec2 →
  unload_list (Args spec1) = unload_list (Args spec2) →
  unload_list (RawArgs spec1) = unload_list (RawArgs spec2) →
  MakeUnloadCommand spec1 modName = MakeUnloadCommand spec2 modName.
Proof.
  intros Hname Hdir Hfw Hargs Hraw. unfold MakeUnloadCommand.
  rewrite !nonempty_args_list. unfold unload_list in Hargs, Hraw.
  by rewrite Hname, Hdir, Hfw, Hargs, Hraw.
Qed.

Lemma MakeUnloadCommand_reads_unload_lists_witness :
  let spec1 := {| ModuleName := "mod_a"; DirName := ""; FirmwarePath := "/fw";
                  Parameters := ["p=1"; "q=2"];
                  Args := Some {| Load := ["-f"]; Unload := [] |};
                  RawArgs := Some {| Load := ["x"]; Unload := [] |} |} in
  let spec2 := {| ModuleName := "mod_a"; DirName := ""; FirmwarePath := "/fw";
                  Parameters := []; Args := None; RawArgs := None |} in
  MakeUnloadCommand spec1 "mod-a" = MakeUnloadCommand spec2 "mod-a".
Proof.
  intros spec1 spec2.
  apply (MakeUnloadCommand_reads_unload_lists spec1 spec2 "mod-a"); reflexivity.
Defined.

Lemma MakeLoadCommand_firmware (spec : ModprobeSpec) (modName : string) :
  load_list (RawArgs spec) = [] → FirmwarePath spec ≠ "" →
  command_string (MakeLoadCommand spec modName)
  = "cp -r " +:+ FirmwarePath spec +:+ " /var/lib/firmware/" +:+ modName
      +:+ " && "
      +:+ command_string (MakeLoadCommand (with_FirmwarePath spec "") modName).
Proof.
  intros Hraw Hfw. unfold MakeLoadCommand, with_FirmwarePath, command_string.
  cbn [RawArgs Args FirmwarePath DirName ModuleName Parameters].
  rewrite !nonempty_args_list. unfold load_list in Hraw. rewrite Hraw.
  rewrite (bool_decide_true _ Hfw).
  rewrite (bool_decide_false ("" ≠ "")) by (intros Hne; by apply Hne).
  cbv zeta.
  destruct (from_option Load [] (Args spec)) as [|a l];
    destruct (bool_decide (DirName spec ≠ ""));
    destruct (bool_decide (0 < length (Parameters spec))); simpl;
    rewrite ?string_app_assoc; reflexivity.
Qed.

(** Without raw load arguments, a firmware path puts the staging step
    in front of the command the specification yields without it. *)
Theorem MakeLoadCommand_firmware_staging_first
    (spec : ModprobeSpec) (modName : string) :
  load_list (RawArgs spec) = [] → FirmwarePath spec ≠ "" →
  command_string (MakeLoadCommand spec modName)
  = "cp -r " +:+ FirmwarePath spec +:+ " /var/lib/firmware/" +:+ modName
      +:+ " && "
      +:+ command_string (MakeLoadCommand (with_FirmwarePath spec "") modName).
Proof. apply MakeLoadCommand_firmware. Qed.

Lemma MakeLoadCommand_firmware_staging_first_witness :
  let spec := {| ModuleName := "mod_a"; DirName := "/opt"; FirmwarePath := "/fw/a";
                 Parameters := ["p=1"];
                 Args := Some {| Load := ["-f"]; Unload := [] |};
                 RawArgs := None |} in
  command_string (MakeLoadCommand spec "mod-a")
  = "cp -r /fw/a /var/lib/firmware/mod-a && modprobe -f -d /opt mod_a p=1".
Proof.
  intros spec.
  apply (MakeLoadCommand_firmware_staging_first spec "mod-a");
    [reflexivity | discriminate].
Defined.

Lemma MakeUnloadCommand_firmware (spec : ModprobeSpec) (modName : string) :
  unload_list (RawArgs spec) = [] → FirmwarePath spec ≠ "" →
  command_string (MakeUnloadCommand spec modName)
  = command_string (MakeUnloadCommand (with_FirmwarePath spec "") modName)
      +:+ " && rm -rf /var/lib/firmware/" +:+ modName.
Proof.
  intros Hraw Hfw. unfold MakeUnloadCommand, with_FirmwarePath, command_string.
  cbn [RawArgs Args FirmwarePath DirName ModuleName Parameters].
  rewrite !nonempty_args_list. unfold unload_list in Hraw. rewrite Hraw.
  rewrite (bool_decide_true _ Hfw).
  rewrite (bool_decide_false ("" ≠ "")) by (intros Hne; by apply Hne).
  cbv zeta.
  destruct (from_option Unload [] (Args spec)) as [|a l];
    destruct (bool_decide (DirName spec ≠ "")); simpl;
    rewrite ?string_app_assoc; reflexivity.
Qed.

(** Without raw unload arguments, a firmware path puts the cleanup step
    behind the command the specification yields without it. *)
Theorem MakeUnloadCommand_firmware_cleanup_last
    (spec : ModprobeSpec) (modName : string) :
  unload_list (RawArgs spec) = [] → FirmwarePath spec ≠ "" →
  command_string (MakeUnloadCommand spec modName)
  = command_string (MakeUnloadCommand (with_FirmwarePath spec "") modName)
      +:+ " && rm -rf /var/lib/firmware/" +:+ modName.
Proof. apply MakeUnloadCommand_firmware. Qed.

Lemma MakeUnloadCommand_firmware_cleanup_last_witness :
  let spec := {| ModuleName := "mod_a"; DirName := "/opt"; FirmwarePath := "/fw/a";
                 Parameters := ["p=1"];
                 Args := None; RawArgs := None |} in
  command_string (MakeUnloadCommand spec "mod-a")
  = "modprobe -rv -d /opt mod_a && rm -rf /var/lib/firmware/mod-a".
Proof.
  intros spec.
  apply (MakeUnloadCommand_firmware_cleanup_last spec "mod-a");
    [reflexivity | discriminate].
Defined.

(** Every unload command is the shell triple whose command string has
    [modprobe] as its first word: whatever the specification, cleanup
    never comes first. *)
Theorem MakeUnloadCommand_invokes_modprobe_first
    (spec : ModprobeSpec) (modName : string) :
  ∃ rest : string,
    MakeUnloadCommand spec modName = ["/bin/sh"; "-c"; "modprobe " +:+ rest] ∧
    head (split_spaces (command_string (MakeUnloadCommand spec modName)))
    = Some "modprobe".
Proof.
  assert (∀ rest : string,
            head (split_spaces ("modprobe " +:+ rest)) = Some "modprobe") as Hhead.
  { intros rest.
    change ("modprobe " +:+ rest) with ("modprobe" +:+ " " +:+ rest).
    by rewrite split_spaces_app. }
  unfold MakeUnloadCommand.
  destruct (nonempty_args (RawArgs spec) Unload) as [raUnload|].
  { eexists. split; [reflexivity|]. apply Hhead. }
  cbv zeta.
  destruct (nonempty_args (Args spec) Unload) as [aUnload|];
    destruct (bool_decide (DirName spec ≠ ""));
    destruct (bool_decide (FirmwarePath spec ≠ ""));
    rewrite ?string_app_assoc;
    (eexists; split; [reflexivity|]; apply Hhead).
Qed.

(** ** Label utilities, further *)

Lemma OverrideLabels_idempotent (labels overrides : gmap string string) :
  OverrideLabels (OverrideLabels labels overrides) overrides
  = OverrideLabels labels overrides.
Proof.
  apply map_eq. intros k. rewrite !OverrideLabels_lookup.
  by destruct (overrides !! k).
Qed.

(** [OverrideLabels] binds every key of the overrides to its override
    and keeps every other binding of the labels; no key is lost, and
    overriding once more with the same overrides changes nothing. *)
Theorem OverrideLabels_overrides_win (labels overrides : gmap string string) :
  (∀ k, OverrideLabels labels overrides !! k
        = match overrides !! k with
          | Some v => Some v
          | None => labels !! k
          end) ∧
  dom (OverrideLabels labels overrides) = dom labels ∪ dom overrides ∧
  OverrideLabels (OverrideLabels labels overrides) overrides
  = OverrideLabels labels overrides.
Proof.
  split; [apply OverrideLabels_lookup|].
  split; [|apply OverrideLabels_idempotent].
  rewrite OverrideLabels_union, dom_union_L. apply (comm_L (∪)).
Qed.

(** [CopyMapStringString] yields a map with the bindings of its
    argument, key by key, nil (empty) for nil. *)
Theorem CopyMapStringString_same_bindings (m : gmap string string) :
  (∀ k, CopyMapStringString m !! k = m !! k) ∧
  dom (CopyMapStringString m) = dom m ∧
  CopyMapStringString ∅ = ∅.
Proof. by rewrite !CopyMapStringString_eq. Qed.

Lemma string_length_app (a b : string) :
  String.length (a +:+ b) = String.length a + String.length b.
Proof.
  induction a as [|x a IH]; [done|].
  rewrite string_app_cons. simpl. by rewrite IH.
Qed.

(** Strings that end in tails of the same length are equal only if the
    tails are, and then so are the fronts. *)
Lemma string_app_inj_tail (a b c d : string) :
  String.length c = String.length d →
  a +:+ c = b +:+ d → a = b ∧ c = d.
Proof.
  intros Hlen. revert b. induction a as [|x a IH]; intros [|y b] Heq.
  - done.
  - rewrite string_app_nil_l in Heq.
    apply (f_equal String.length) in Heq.
    rewrite string_length_app in Heq. simpl in Heq. lia.
  - rewrite string_app_nil_l in Heq.
    apply (f_equal String.length) in Heq.
    rewrite string_length_app in Heq. simpl in Heq. lia.
  - rewrite !string_app_cons in Heq. injection Heq as -> Heq.
    destruct (IH b Heq) as [-> ->]. done.
Qed.

(** The readiness keys tell the modules apart: each of the two keys
    determines the module name, and no module's driver key is another
    module's device-plugin key. *)
Theorem readiness_labels_injective (moduleName1 moduleName2 : string) :
  (getDriverContainerNodeLabel moduleName1
   = getDriverContainerNodeLabel moduleName2 ↔ moduleName1 = moduleName2) ∧
  (getDevicePluginNodeLabel moduleName1
   = getDevicePluginNodeLabel moduleName2 ↔ moduleName1 = moduleName2) ∧
  getDriverContainerNodeLabel moduleName1
  ≠ getDevicePluginNodeLabel moduleName2.
Proof.
  unfold getDriverContainerNodeLabel, getDevicePluginNodeLabel.
  split; [|split].
  - split; [|by intros ->]. intros Heq.
    apply (inj (String.append _)) in Heq.
    by apply string_app_inj_tail in Heq as [-> _].
  - split; [|by intros ->]. intros Heq.
    apply (inj (String.append _)) in Heq.
    by apply string_app_inj_tail in Heq as [-> _].
  - intros Heq. apply (inj (String.append _)) in Heq.
    change (moduleName2 +:+ ".device-plugin-ready")
      with (moduleName2 +:+ ".device-plugin" +:+ "-ready") in Heq.
    rewrite <- string_app_assoc in Heq.
    by apply string_app_inj_tail in Heq as [_ Htail].
Qed.

(** ** The module-loader generator on valid input *)

(** Unfolds a run of [SetDriverContainerAsDesired] on a non-nil target,
    a non-empty image and a non-empty kernel version. *)
Ltac run_driver Himage Hkernel :=
  unfold SetDriverContainerAsDesired;
  rewrite (bool_decide_false _ Himage), (bool_decide_false _ Hkernel);
  cbv zeta;
  case_bool_decide;
  cbv beta iota;
  destruct (SetControllerReference _ _ _) as [err refs].

Ltac read_workload :=
  cbn [ds_Spec ds_ObjectMeta SetOwnerReferences set_Spec SetLabels GetLabels
       Template tpl_Spec tpl_ObjectMeta NodeSelector Selector Labels Name
       Namespace Finalizers OwnerReferences ObjectMeta_literal MatchLabels
       pod_spec fst snd].


Lemma plugin_labels_lookup `{Constants} (name k : string) :
  plugin_labels name !! k
  = if decide (DaemonSetRole = k) then Some "device-plugin"
    else if decide (ModuleNameLabel = k) then Some name
    else None.
Proof.
  unfold plugin_labels. rewrite !lookup_insert, lookup_empty.
  by repeat case_decide.
Qed.

Lemma OverrideLabels_subseteq (labels overrides : gmap string string) :
  overrides ⊆ OverrideLabels labels overrides.
Proof. rewrite OverrideLabels_union. apply map_union_subseteq_l. Qed.

Section generators.
Context `{Constants} {C S : Type} `{!ControllerUtil S}.
Implicit Types (dc : daemonSetGenerator C S) (d : DaemonSet) (kmod : Module).

(** On valid input the pod node selector of the module loader is the
    selector of the module with the kernel-version label bound to the
    kernel version: that label always selects the kernel, even when the
    module selects on it too, and every other key is the module's. *)
Theorem SetDriverContainerAsDesired_node_selector dc d (image : string) kmod
    (kernelVersion : string) :
  image ≠ "" → kernelVersion ≠ "" →
  ∃ d', (SetDriverContainerAsDesired dc (Some d) image kmod kernelVersion).2
        = Some d' ∧
    let nodeSelector := NodeSelector (pod_spec d') in
    nodeSelector
    = <[kernelLabel dc := kernelVersion]> (mod_Selector (mod_Spec kmod)) ∧
    nodeSelector !! kernelLabel dc = Some kernelVersion ∧
    ∀ k, k ≠ kernelLabel dc →
         nodeSelector !! k = mod_Selector (mod_Spec kmod) !! k.
Proof.
  intros Himage Hkernel. run_driver Himage Hkernel.
  all: eexists; (split; [reflexivity|]); read_workload.
  all: rewrite CopyMapStringString_eq; split; [done|].
  all: split; [apply lookup_insert_eq|].
  all: intros k Hk; by rewrite lookup_insert_ne.
Qed.


(** On valid input the selector of the workload, the labels of its pod
    template and the standard labels are one map, and the workload
    carries every one of these labels itself. *)
Theorem SetDriverContainerAsDesired_selector_matches_template dc d
    (image : string) kmod (kernelVersion : string) :
  image ≠ "" → kernelVersion ≠ "" →
  ∃ d', (SetDriverContainerAsDesired dc (Some d) image kmod kernelVersion).2
        = Some d' ∧
    let standardLabels :=
      loader_labels (kernelLabel dc) (mod_Name kmod) kernelVersion in
    Selector (ds_Spec d') = Some {| MatchLabels := standardLabels |} ∧
    Labels (tpl_ObjectMeta (Template (ds_Spec d'))) = standardLabels ∧
    standardLabels ⊆ GetLabels d'.
Proof.
  intros Himage Hkernel. run_driver Himage Hkernel.
  all: eexists; (split; [reflexivity|]); read_workload.
  all: split; [done|]; split; [done|]; apply OverrideLabels_subseteq.
Qed.

(** Neither generator, on any input and with any outcome, touches the
    name, the namespace or the finalizers of the target; a nil target
    stays nil. *)
Theorem generators_keep_identity dc :
  (∀ (ds : option DaemonSet) (image : string) kmod (kernelVersion : string),
     let after :=
       (SetDriverContainerAsDesired dc ds image kmod kernelVersion).2 in
     (Name ∘ ds_ObjectMeta) <$> after = (Name ∘ ds_ObjectMeta) <$> ds ∧
     (Namespace ∘ ds_ObjectMeta) <$> after = (Namespace ∘ ds_ObjectMeta) <$> ds ∧
     (Finalizers ∘ ds_ObjectMeta) <$> after
     = (Finalizers ∘ ds_ObjectMeta) <$> ds) ∧
  (∀ (ds : option DaemonSet) (kmod : option Module),
     let after := (SetDevicePluginAsDesired dc ds kmod).2 in
     (Name ∘ ds_ObjectMeta) <$> after = (Name ∘ ds_ObjectMeta) <$> ds ∧
     (Namespace ∘ ds_ObjectMeta) <$> after = (Namespace ∘ ds_ObjectMeta) <$> ds ∧
     (Finalizers ∘ ds_ObjectMeta) <$> after
     = (Finalizers ∘ ds_ObjectMeta) <$> ds).
Proof.
  split.
  - intros [d|] image kmod kernelVersion; [|done].
    unfold SetDriverContainerAsDesired.
    repeat case_bool_decide; try done.
    all: cbv zeta beta iota.
    all: by destruct (SetControllerReference _ _ _) as [err refs].
  - intros [d|] [kmod|]; try done.
    unfold SetDevicePluginAsDesired.
    destruct (DevicePlugin (mod_Spec kmod)); [|done].
    by destruct (SetControllerReference _ _ _) as [err refs].
Qed.

End generators.

(** ** The generators, further *)

Ltac pick_elem :=
  (apply list_elem_of_here) + (apply list_elem_of_further; pick_elem).

(** Unfolds a run of [SetDevicePluginAsDesired] on a non-nil target and
    a module with a device-plugin section. *)
Ltac run_plugin Hdp :=
  unfold SetDevicePluginAsDesired;
  rewrite Hdp;
  cbv zeta;
  destruct (SetControllerReference _ _ _) as [err refs].

Section generators_further.
Context `{Constants} {C S : Type} `{!ControllerUtil S}.
Implicit Types (dc : daemonSetGenerator C S) (d : DaemonSet) (kmod : Module).

(** A run on valid input: the target is relabelled and gets its spec,
    and the owner reference is set on the outcome of that. *)
Lemma SetDriverContainerAsDesired_valid dc d (image : string) kmod
    (kernelVersion : string) :
  image ≠ "" → kernelVersion ≠ "" →
  ∃ d0,
    SetDriverContainerAsDesired dc (Some d) image kmod kernelVersion
    = (let '(err, refs) := SetControllerReference kmod d0 (scheme dc) in
       (result_of_error err, Some (SetOwnerReferences d0 refs))) ∧
    GetLabels d0
    = OverrideLabels (GetLabels d)
        (loader_labels (kernelLabel dc) (mod_Name kmod) kernelVersion) ∧
    Selector (ds_Spec d0)
    = Some {| MatchLabels :=
                loader_labels (kernelLabel dc) (mod_Name kmod) kernelVersion |} ∧
    Labels (tpl_ObjectMeta (Template (ds_Spec d0)))
    = loader_labels (kernelLabel dc) (mod_Name kmod) kernelVersion ∧
    OwnerReferences (ds_ObjectMeta d0) = OwnerReferences (ds_ObjectMeta d).
Proof.
  intros Himage Hkernel. unfold SetDriverContainerAsDesired.
  rewrite (bool_decide_false _ Himage), (bool_decide_false _ Hkernel).
  cbv zeta. case_bool_decide; cbv beta iota.
  all: eexists; split; [reflexivity|]; by read_workload.
Qed.

(** The spec written on valid input is the same for every target. *)
Lemma SetDriverContainerAsDesired_spec dc d1 d2 (image : string) kmod
    (kernelVersion : string) :
  image ≠ "" → kernelVersion ≠ "" →
  ∃ d1' d2',
    (SetDriverContainerAsDesired dc (Some d1) image kmod kernelVersion).2
    = Some d1' ∧
    (SetDriverContainerAsDesired dc (Some d2) image kmod kernelVersion).2
    = Some d2' ∧
    ds_Spec d1' = ds_Spec d2'.
Proof.
  intros Himage Hkernel. unfold SetDriverContainerAsDesired.
  rewrite (bool_decide_false _ Himage), (bool_decide_false _ Hkernel).
  cbv zeta. case_bool_decide; cbv beta iota.
  all: destruct (SetControllerReference kmod _ _) as [err1 refs1].
  all: destruct (SetControllerReference kmod _ _) as [err2 refs2].
  all: by eexists _, _.
Qed.

(** On valid input every volume mount of the module loader has a
    host-path volume of its name for the very path it is mounted at;
    there are as many volumes as mounts, and the firmware directory is
    among them exactly when the module has a firmware path. *)
Theorem SetDriverContainerAsDesired_mounts_have_volumes dc d (image : string)
    kmod (kernelVersion : string) :
  image ≠ "" → kernelVersion ≠ "" →
  ∃ d' c,
    (SetDriverContainerAsDesired dc (Some d) image kmod kernelVersion).2
    = Some d' ∧
    Containers (pod_spec d') = [c] ∧
    (∀ m, m ∈ c_VolumeMounts c →
       ∃ v t, v ∈ Volumes (pod_spec d') ∧ vol_Name v = vm_Name m ∧
              HostPath (vol_VolumeSource v)
              = Some {| hp_Path := vm_MountPath m; hp_Type := t |}) ∧
    length (Volumes (pod_spec d')) = length (c_VolumeMounts c) ∧
    (nodeVarLibFirmwareVolumeName ∈ vm_Name <$> c_VolumeMounts c ↔
     FirmwarePath (Modprobe (ml_Container (ModuleLoader (mod_Spec kmod)))) ≠ "").
Proof.
  intros Himage Hkernel. run_driver Himage Hkernel.
  all: eexists _, _; (split; [reflexivity|]); read_workload.
  all: cbn [Containers Volumes c_VolumeMounts app].
  all: split; [reflexivity|].
  all: split; [|split; [reflexivity|]].
  1,3: intros m Hm;
       repeat (apply elem_of_cons in Hm as [->|Hm]);
       try (by apply elem_of_nil in Hm);
       (eexists _, _; split; [pick_elem | split; reflexivity]).
  - split; [done|]. intros _. cbn. pick_elem.
  - split; [|done]. cbn. intros Hin.
    repeat (apply elem_of_cons in Hin as [Heq|Hin]); try discriminate.
    by apply elem_of_nil in Hin.
Qed.

(** On valid input, for a module with a firmware path, the directory
    the post-start command stages the firmware into and the directory
    the pre-stop command removes are the mount path of the firmware
    volume mount, [/var/lib/firmware/<module name>] (raw arguments of a
    direction replace the command of that direction). *)
Theorem SetDriverContainerAsDesired_firmware_paths_agree dc d (image : string)
    kmod (kernelVersion : string) :
  let modprobe := Modprobe (ml_Container (ModuleLoader (mod_Spec kmod))) in
  image ≠ "" → kernelVersion ≠ "" → FirmwarePath modprobe ≠ "" →
  ∃ d' c m load unload,
    (SetDriverContainerAsDesired dc (Some d) image kmod kernelVersion).2
    = Some d' ∧
    Containers (pod_spec d') = [c] ∧
    m ∈ c_VolumeMounts c ∧
    vm_Name m = nodeVarLibFirmwareVolumeName ∧
    vm_MountPath m = "/var/lib/firmware/" +:+ mod_Name kmod ∧
    c_Lifecycle c
    = Some {| PostStart := Some {| Exec := Some {| exec_Command := load |} |};
              PreStop := Some {| Exec := Some {| exec_Command := unload |} |} |} ∧
    (load_list (RawArgs modprobe) = [] →
     command_string load
     = "cp -r " +:+ FirmwarePath modprobe +:+ " " +:+ vm_MountPath m +:+ " && "
         +:+ command_string
               (MakeLoadCommand (with_FirmwarePath modprobe "") (mod_Name kmod))) ∧
    (unload_list (RawArgs modprobe) = [] →
     command_string unload
     = command_string
         (MakeUnloadCommand (with_FirmwarePath modprobe "") (mod_Name kmod))
         +:+ " && rm -rf " +:+ vm_MountPath m).
Proof.
  intros modprobe Himage Hkernel Hfw. run_driver Himage Hkernel; [|done].
  eexists _, _, _, _, _. split; [reflexivity|]. read_workload.
  cbn [Containers c_VolumeMounts c_Lifecycle app].
  split; [reflexivity|].
  (split; [pick_elem|]); (split; [reflexivity|]).
  split; [reflexivity|]. split; [reflexivity|].
  split; intros Hraw.
  - by rewrite (MakeLoadCommand_firmware _ _ Hraw Hfw).
  - by rewrite (MakeUnloadCommand_firmware _ _ Hraw Hfw).
Qed.

(** On valid input the owner reference is set last, on the target
    already relabelled and given its spec, and its error is the result:
    when [SetControllerReference] fails the error comes back as it is,
    and the target has the generated labels and spec all the same. *)
Theorem SetDriverContainerAsDesired_owner_reference_last dc d (image : string)
    kmod (kernelVersion : string) :
  image ≠ "" → kernelVersion ≠ "" →
  ∃ d0,
    let call := SetControllerReference kmod d0 (scheme dc) in
    let standardLabels :=
      loader_labels (kernelLabel dc) (mod_Name kmod) kernelVersion in
    SetDriverContainerAsDesired dc (Some d) image kmod kernelVersion
    = (result_of_error call.1, Some (SetOwnerReferences d0 call.2)) ∧
    GetLabels d0 = OverrideLabels (GetLabels d) standardLabels ∧
    Selector (ds_Spec d0) = Some {| MatchLabels := standardLabels |} ∧
    OwnerReferences (ds_ObjectMeta d0) = OwnerReferences (ds_ObjectMeta d) ∧
    GetLabels (SetOwnerReferences d0 call.2) = GetLabels d0 ∧
    ds_Spec (SetOwnerReferences d0 call.2) = ds_Spec d0.
Proof.
  intros Himage Hkernel.
  destruct (SetDriverContainerAsDesired_valid dc d image kmod kernelVersion)
    as (d0 & Hrun & Hlabels & Hselector & _ & Howners); [done..|].
  exists d0. cbv zeta. rewrite Hrun.
  by destruct (SetControllerReference kmod d0 (scheme dc)) as [err refs].
Qed.

(** Generating twice is generating once, as far as the generator goes:
    on valid input, a second run with the same arguments on the outcome
    of the first leaves the labels and the spec as the first run made
    them. *)
Theorem SetDriverContainerAsDesired_idempotent dc d (image : string) kmod
    (kernelVersion : string) :
  image ≠ "" → kernelVersion ≠ "" →
  ∃ d1 d2,
    (SetDriverContainerAsDesired dc (Some d) image kmod kernelVersion).2
    = Some d1 ∧
    (SetDriverContainerAsDesired dc (Some d1) image kmod kernelVersion).2
    = Some d2 ∧
    GetLabels d2 = GetLabels d1 ∧
    ds_Spec d2 = ds_Spec d1.
Proof.
  intros Himage Hkernel.
  destruct (SetDriverContainerAsDesired_valid dc d image kmod kernelVersion)
    as (d0 & Hrun & Hlabels & _); [done..|].
  destruct (SetControllerReference kmod d0 (scheme dc)) as [err refs].
  set (d1 := SetOwnerReferences d0 refs) in *.
  destruct (SetDriverContainerAsDesired_valid dc d1 image kmod kernelVersion)
    as (d0' & Hrun' & Hlabels' & _); [done..|].
  destruct (SetControllerReference kmod d0' (scheme dc)) as [err' refs'].
  destruct (SetDriverContainerAsDesired_spec dc d1 d image kmod kernelVersion)
    as (x & y & Hx & Hy & Hspec); [done..|].
  rewrite Hrun in Hy. rewrite Hrun' in Hx. simpl in Hx, Hy.
  injection Hx as <-. injection Hy as <-.
  exists d1, (SetOwnerReferences d0' refs').
  rewrite Hrun, Hrun'. repeat split; [|done].
  change (GetLabels (SetOwnerReferences d0' refs')) with (GetLabels d0').
  rewrite Hlabels'.
  change (GetLabels d1) with (GetLabels d0).
  by rewrite Hlabels, OverrideLabels_idempotent.
Qed.


(** For a module with a device-plugin section the labels of the target
    are its former labels overridden by the module name and the role
    [device-plugin]; these two are the selector and the labels of the
    pod template, and every other label of the target stays. *)
Theorem SetDevicePluginAsDesired_labels dc d kmod
    (devicePlugin : DevicePluginSpec) :
  DevicePlugin (mod_Spec kmod) = Some devicePlugin →
  ∃ d',
    (SetDevicePluginAsDesired dc (Some d) (Some kmod)).2 = Some d' ∧
    let standardLabels := plugin_labels (mod_Name kmod) in
    Selector (ds_Spec d') = Some {| MatchLabels := standardLabels |} ∧
    Labels (tpl_ObjectMeta (Template (ds_Spec d'))) = standardLabels ∧
    standardLabels ⊆ GetLabels d' ∧
    GetLabels d' !! DaemonSetRole = Some "device-plugin" ∧
    ∀ k, k ≠ DaemonSetRole → k ≠ ModuleNameLabel →
         GetLabels d' !! k = GetLabels d !! k.
Proof.
  intros Hdp. run_plugin Hdp.
  eexists; (split; [reflexivity|]); read_workload.
  fold (plugin_labels (mod_Name kmod)).
  split; [done|]. split; [done|]. split; [apply OverrideLabels_subseteq|].
  split; [|intros k Hrole Hname];
    rewrite OverrideLabels_lookup, plugin_labels_lookup;
    repeat case_decide; congruence.
Qed.


End generators_further.

(** ** The generators, concrete runs *)

Lemma SetDriverContainerAsDesired_node_selector_witness :
  ∃ d',
    (SetDriverContainerAsDesired (sample_generator [])
       (Some (sample_DaemonSet "ds-a" ∅)) "image:1"
       (sample_firmware_Module "mod-a" "/fw") "5.14").2 = Some d' ∧
    NodeSelector (pod_spec d')
    = {[ sample_kernelLabel := "5.14"; "kubernetes.io/hostname" := "minikube" ]}.
Proof.
  destruct (SetDriverContainerAsDesired_node_selector (sample_generator [])
              (sample_DaemonSet "ds-a" ∅) "image:1"
              (sample_firmware_Module "mod-a" "/fw") "5.14")
    as (d' & Hrun & Hselector & _); [discriminate..|].
  exists d'. split; [exact Hrun | exact Hselector].
Defined.


Lemma SetDriverContainerAsDesired_selector_matches_template_witness :
  ∃ d',
    (SetDriverContainerAsDesired (sample_generator [])
       (Some (sample_DaemonSet "ds-a" ∅)) "image:1"
       (sample_Module "mod-a" None) "5.14").2 = Some d' ∧
    Selector (ds_Spec d')
    = Some {| MatchLabels := Labels (tpl_ObjectMeta (Template (ds_Spec d'))) |}.
Proof.
  destruct (SetDriverContainerAsDesired_selector_matches_template
              (sample_generator []) (sample_DaemonSet "ds-a" ∅) "image:1"
              (sample_Module "mod-a" None) "5.14")
    as (d' & Hrun & Hselector & Htemplate & _); [discriminate..|].
  exists d'. split; [exact Hrun|]. by rewrite Hselector, Htemplate.
Defined.

Lemma SetDriverContainerAsDesired_mounts_have_volumes_witness :
  ∃ d' c,
    (SetDriverContainerAsDesired (sample_generator [])
       (Some (sample_DaemonSet "ds-a" ∅)) "image:1"
       (sample_firmware_Module "mod-a" "/fw") "5.14").2 = Some d' ∧
    Containers (pod_spec d') = [c] ∧
    length (Volumes (pod_spec d')) = length (c_VolumeMounts c) ∧
    nodeVarLibFirmwareVolumeName ∈ vm_Name <$> c_VolumeMounts c.
Proof.
  destruct (SetDriverContainerAsDesired_mounts_have_volumes (sample_generator [])
              (sample_DaemonSet "ds-a" ∅) "image:1"
              (sample_firmware_Module "mod-a" "/fw") "5.14")
    as (d' & c & Hrun & Hc & _ & Hlength & Hfirmware); [discriminate..|].
  exists d', c. split; [exact Hrun|]. split; [exact Hc|].
  split; [exact Hlength|]. apply Hfirmware. discriminate.
Defined.

Lemma SetDriverContainerAsDesired_firmware_paths_agree_witness :
  ∃ d' c load unload,
    (SetDriverContainerAsDesired (sample_generator [])
       (Some (sample_DaemonSet "ds-a" ∅)) "image:1"
       (sample_firmware_Module "mod-a" "/fw") "5.14").2 = Some d' ∧
    Containers (pod_spec d') = [c] ∧
    c_Lifecycle c
    = Some {| PostStart := Some {| Exec := Some {| exec_Command := load |} |};
              PreStop := Some {| Exec := Some {| exec_Command := unload |} |} |} ∧
    command_string load
    = "cp -r /fw /var/lib/firmware/mod-a && modprobe -v mod-a" ∧
    command_string unload
    = "modprobe -rv mod-a && rm -rf /var/lib/firmware/mod-a".
Proof.
  destruct (SetDriverContainerAsDesired_firmware_paths_agree (sample_generator [])
              (sample_DaemonSet "ds-a" ∅) "image:1"
              (sample_firmware_Module "mod-a" "/fw") "5.14")
    as (d' & c & m & load & unload & Hrun & Hc & _ & _ & Hpath & Hhooks
        & Hload & Hunload); [discriminate..|].
  exists d', c, load, unload. split; [exact Hrun|]. split; [exact Hc|].
  split; [exact Hhooks|]. split.
  - rewrite Hload, Hpath; reflexivity.
  - rewrite Hunload, Hpath; reflexivity.
Defined.

Lemma SetDriverContainerAsDesired_owner_reference_last_witness :
  let refused := errors_New "owner in another namespace" in
  ∃ d',
    SetDriverContainerAsDesired (refusing_generator refused)
      (Some (sample_DaemonSet "ds-a" ∅)) "image:1"
      (sample_Module "mod-a" None) "5.14" = (Err refused, Some d') ∧
    GetLabels d' !! "kmm.node.kubernetes.io/role" = Some "module-loader" ∧
    Selector (ds_Spec d')
    = Some {| MatchLabels := loader_labels sample_kernelLabel "mod-a" "5.14" |}.
Proof.
  intros refused.
  destruct (SetDriverContainerAsDesired_owner_reference_last
              (refusing_generator refused) (sample_DaemonSet "ds-a" ∅) "image:1"
              (sample_Module "mod-a" None) "5.14")
    as (d0 & Hrun & Hlabels & Hselector & _ & Hlabels' & Hspec);
    [discriminate..|].
  eexists. split; [exact Hrun|]. split.
  - rewrite Hlabels', Hlabels. vm_compute. reflexivity.
  - rewrite Hspec. exact Hselector.
Defined.

Lemma SetDriverContainerAsDesired_idempotent_witness :
  ∃ d1 d2,
    (SetDriverContainerAsDesired (sample_generator [])
       (Some (sample_DaemonSet "ds-a" {[ "app" := "x" ]})) "image:1"
       (sample_Module "mod-a" None) "5.14").2 = Some d1 ∧
    (SetDriverContainerAsDesired (sample_generator []) (Some d1) "image:1"
       (sample_Module "mod-a" None) "5.14").2 = Some d2 ∧
    GetLabels d2 = GetLabels d1 ∧ ds_Spec d2 = ds_Spec d1.
Proof.
  apply (SetDriverContainerAsDesired_idempotent (sample_generator [])
           (sample_DaemonSet "ds-a" {[ "app" := "x" ]}) "image:1"
           (sample_Module "mod-a" None) "5.14"); discriminate.
Defined.


Lemma SetDevicePluginAsDesired_labels_witness :
  ∃ d',
    (SetDevicePluginAsDesired (sample_generator [])
       (Some (sample_DaemonSet "ds-a" {[ "app" := "x" ]}))
       (Some (sample_Module "mod-a" (Some sample_DevicePlugin)))).2 = Some d' ∧
    GetLabels d' !! "kmm.node.kubernetes.io/role" = Some "device-plugin" ∧
    GetLabels d' !! "app" = Some "x".
Proof.
  destruct (SetDevicePluginAsDesired_labels (sample_generator [])
              (sample_DaemonSet "ds-a" {[ "app" := "x" ]})
              (sample_Module "mod-a" (Some sample_DevicePlugin))
              sample_DevicePlugin eq_refl)
    as (d' & Hrun & _ & _ & _ & Hrole & Hother).
  exists d'. split; [exact Hrun|]. split; [exact Hrole|].
  rewrite (Hother "app"); [reflexivity | discriminate..].
Defined.


(** ** Lookup, further *)

Section lookup_further.
Context `{Constants} {C S : Type} `{!Client C}.
Implicit Types (dc : daemonSetGenerator C S) (dsList : list DaemonSet).
Implicit Types (acc : gmap string (option DaemonSet)).

(** The loop fails with no other error than the one for a kernel
    version met twice: indexed already when the loop starts and carried
    by an item, or carried by two items. *)
Lemma index_by_kernel_version_Err_inv dc dsList acc (e : error) :
  index_by_kernel_version dc dsList acc = Err e →
  ∃ k, e = multiple_found k ∧
    ((∃ d0 j b, acc !! k = Some (Some d0) ∧ dsList !! j = Some b ∧
                kernel_version_of dc b = k) ∨
     (∃ i j a b, i < j ∧ dsList !! i = Some a ∧ dsList !! j = Some b ∧
                 kernel_version_of dc a = k ∧ kernel_version_of dc b = k)).
Proof.
  revert acc. induction dsList as [|ds rest IH]; intros acc Hrun; [done|].
  simpl in Hrun. fold (kernel_version_of dc ds) in Hrun.
  assert (index_by_kernel_version dc rest
            (<[kernel_version_of dc ds := Some ds]> acc) = Err e →
          ∃ k, e = multiple_found k ∧
            ((∃ d0 j b, acc !! k = Some (Some d0) ∧
                        (ds :: rest) !! j = Some b ∧ kernel_version_of dc b = k) ∨
             (∃ i j a b, i < j ∧ (ds :: rest) !! i = Some a ∧
                         (ds :: rest) !! j = Some b ∧
                         kernel_version_of dc a = k ∧ kernel_version_of dc b = k)))
    as Hnext.
  { intros Hrest. apply IH in Hrest as (k & -> & Hcases). exists k.
    split; [done|].
    destruct Hcases as [(d0 & j & b & Hacc & Hj & Hb)
                       |(i & j & a & b & Hij & Hi & Hj & Ha & Hb)].
    - destruct (decide (kernel_version_of dc ds = k)) as [Hk|Hk].
      + right. exists 0, (Datatypes.S j), ds, b.
        repeat split; [lia | done..].
      + rewrite lookup_insert_ne in Hacc by done.
        left. by exists d0, (Datatypes.S j), b.
    - right. exists (Datatypes.S i), (Datatypes.S j), a, b.
      repeat split; [lia | done..]. }
  destruct (acc !! kernel_version_of dc ds) as [[d0|]|] eqn:Hlook;
    [|by apply Hnext..].
  injection Hrun as <-. exists (kernel_version_of dc ds). split; [done|].
  left. by exists d0, 0, ds.
Qed.

(** What a successful lookup yields: no nil value, every workload
    under its own kernel version, one key for each item listed. *)
Lemma ModuleDaemonSetsByKernelVersion_Ok dc (name namespace : string)
    (m : gmap string (option DaemonSet)) :
  ModuleDaemonSetsByKernelVersion dc name namespace = Ok m →
  ∃ dsList,
    client_List (client dc)
      [MatchingLabels {[ ModuleNameLabel := name ]}; InNamespace namespace]
    = (None, dsList) ∧
    NoDup (kernel_version_of dc <$> dsList) ∧
    ∀ k v, m !! k = Some v ↔
           ∃ ds, ds ∈ dsList ∧ kernel_version_of dc ds = k ∧ v = Some ds.
Proof.
  unfold ModuleDaemonSetsByKernelVersion, moduleDaemonSets.
  destruct (client_List _ _) as [[e|] dsList]; [done|]. intros Hrun.
  exists dsList. split; [done|].
  destruct (decide (NoDup (kernel_version_of dc <$> dsList))) as [Hnodup|Hdup].
  - split; [done|].
    destruct (index_by_kernel_version_Ok dc dsList ∅ Hnodup) as (m' & Hrun' & Hm).
    { intros ds _. apply lookup_empty. }
    rewrite Hrun in Hrun'. injection Hrun' as <-.
    intros k v. rewrite Hm, lookup_empty. split; [intros [?|?]; done | by right].
  - destruct (index_by_kernel_version_Err dc dsList ∅ no_nil_empty) as [k Herr];
      [by left|]. by rewrite Hrun in Herr.
Qed.

(** When the listing succeeds, an error of
    [ModuleDaemonSetsByKernelVersion] is the error for a kernel version
    that two of the listed workloads carry. *)
Theorem ModuleDaemonSetsByKernelVersion_error_names_duplicate dc
    (name namespace : string) dsList (e : error) :
  client_List (client dc)
    [MatchingLabels {[ ModuleNameLabel := name ]}; InNamespace namespace]
  = (None, dsList) →
  ModuleDaemonSetsByKernelVersion dc name namespace = Err e →
  ∃ (k : string) (i j : nat) (a b : DaemonSet),
    e = multiple_found k ∧ i < j ∧
    dsList !! i = Some a ∧ dsList !! j = Some b ∧
    kernel_version_of dc a = k ∧ kernel_version_of dc b = k.
Proof.
  intros Hlist. unfold ModuleDaemonSetsByKernelVersion, moduleDaemonSets.
  rewrite Hlist. intros Hrun.
  apply index_by_kernel_version_Err_inv in Hrun as (k & -> & Hcases).
  destruct Hcases as [(d0 & j & b & Hacc & _)|(i & j & a & b & Hdup)].
  - by rewrite lookup_empty in Hacc.
  - by exists k, i, j, a, b.
Qed.

(** [ModuleDaemonSetsByKernelVersion] never panics; a failed listing
    comes back wrapped twice, as could-not-get-all of could-not-list;
    and a mapping comes back exactly when the listing succeeds with
    pairwise distinct kernel versions. *)
Theorem ModuleDaemonSetsByKernelVersion_outcome dc (name namespace : string)
    (err : option error) dsList :
  client_List (client dc)
    [MatchingLabels {[ ModuleNameLabel := name ]}; InNamespace namespace]
  = (err, dsList) →
  ModuleDaemonSetsByKernelVersion dc name namespace ≠ Panic ∧
  (∀ e, err = Some e →
        ModuleDaemonSetsByKernelVersion dc name namespace
        = Err (could_not_get_all (could_not_list e))) ∧
  ((∃ m, ModuleDaemonSetsByKernelVersion dc name namespace = Ok m) ↔
   err = None ∧ NoDup (kernel_version_of dc <$> dsList)).
Proof.
  intros Hlist. unfold ModuleDaemonSetsByKernelVersion, moduleDaemonSets.
  rewrite Hlist. destruct err as [e|].
  - split; [done|]. split; [by intros e' [= <-]|].
    split; [by intros [m ?] | by intros [? _]].
  - destruct (decide (NoDup (kernel_version_of dc <$> dsList))) as [Hnodup|Hdup].
    + destruct (index_by_kernel_version_Ok dc dsList ∅ Hnodup)
        as (m & Hrun & _).
      { intros ds _. apply lookup_empty. }
      rewrite Hrun. split; [done|]. split; [done|].
      split; [done | by exists m].
    + destruct (index_by_kernel_version_Err dc dsList ∅ no_nil_empty)
        as [k Herr]; [by left|].
      rewrite Herr. split; [done|]. split; [done|].
      split; [by intros [m ?] | by intros [_ ?]].
Qed.

(** The mapping of a successful lookup is well formed: no key is bound
    to nil, every workload sits under its own kernel version, and the
    keys are the kernel versions of the listed workloads, one key for
    each workload. *)
Theorem ModuleDaemonSetsByKernelVersion_index_well_formed dc
    (name namespace : string) (m : gmap string (option DaemonSet)) :
  ModuleDaemonSetsByKernelVersion dc name namespace = Ok m →
  no_nil m ∧
  (∀ k d, m !! k = Some (Some d) → kernel_version_of dc d = k) ∧
  ∃ dsList,
    client_List (client dc)
      [MatchingLabels {[ ModuleNameLabel := name ]}; InNamespace namespace]
    = (None, dsList) ∧
    dom m = list_to_set (kernel_version_of dc <$> dsList) ∧
    size m = length dsList.
Proof.
  intros Hrun.
  apply ModuleDaemonSetsByKernelVersion_Ok in Hrun as (dsList & Hlist & Hnodup & Hm).
  assert (dom m = list_to_set (kernel_version_of dc <$> dsList)) as Hdom.
  { apply set_eq. intros k.
    rewrite elem_of_dom, elem_of_list_to_set, list_elem_of_fmap. split.
    - intros [v (ds & Hin & Hk & _)%Hm]. by exists ds.
    - intros (ds & -> & Hin). exists (Some ds). apply Hm. by exists ds. }
  split; [|split].
  - intros k (ds & _ & _ & Hnil)%Hm. done.
  - intros k d (ds & _ & Hk & [= <-])%Hm. done.
  - exists dsList. split; [done|]. split; [done|].
    by rewrite <- size_dom, Hdom, size_list_to_set, length_fmap.
Qed.

End lookup_further.

Lemma ModuleDaemonSetsByKernelVersion_error_names_duplicate_witness :
  let a := sample_loader "ds-a" "5.10" in
  let b := sample_loader "ds-b" "5.14" in
  let c := sample_loader "ds-c" "5.10" in
  ∃ (k : string) (i j : nat) (x y : DaemonSet),
    multiple_found "5.10" = multiple_found k ∧ i < j ∧
    [a; b; c] !! i = Some x ∧ [a; b; c] !! j = Some y ∧
    kernel_version_of (sample_generator [a; b; c]) x = k ∧
    kernel_version_of (sample_generator [a; b; c]) y = k.
Proof.
  intros a b c.
  eapply (ModuleDaemonSetsByKernelVersion_error_names_duplicate
            (sample_generator [a; b; c]) "mod-a" "ns" [a; b; c]);
    [reflexivity | vm_compute; reflexivity].
Defined.

Lemma ModuleDaemonSetsByKernelVersion_outcome_witness :
  let a := sample_loader "ds-a" "5.10" in
  let b := sample_loader "ds-b" "5.14" in
  ∃ m, ModuleDaemonSetsByKernelVersion (sample_generator [a; b]) "mod-a" "ns"
       = Ok m.
Proof.
  intros a b.
  destruct (ModuleDaemonSetsByKernelVersion_outcome (sample_generator [a; b])
              "mod-a" "ns" None [a; b]) as (_ & _ & Hok); [reflexivity|].
  apply Hok. split; [reflexivity|].
  apply (bool_decide_unpack _). vm_compute. exact I.
Defined.

Lemma ModuleDaemonSetsByKernelVersion_index_well_formed_witness :
  let a := sample_loader "ds-a" "5.10" in
  let b := sample_DaemonSet "ds-b" ∅ in
  let m : gmap string (option DaemonSet) := {[ "5.10" := Some a; "" := Some b ]} in
  ModuleDaemonSetsByKernelVersion (sample_generator [a; b]) "mod-a" "ns" = Ok m ∧
  no_nil m ∧ size m = 2.
Proof.
  intros a b m.
  assert (ModuleDaemonSetsByKernelVersion (sample_generator [a; b]) "mod-a" "ns"
          = Ok m) as Hrun by (vm_compute; reflexivity).
  destruct (ModuleDaemonSetsByKernelVersion_index_well_formed
              (sample_generator [a; b]) "mod-a" "ns" m Hrun)
    as (Hnil & _ & dsList & Hlist & _ & Hsize).
  split; [exact Hrun|]. split; [exact Hnil|].
  rewrite Hsize. injection Hlist as <-. reflexivity.
Defined.

(** ** Garbage collection, further *)

Section garbage_collection_further.
Context `{Constants} {C S : Type} `{!Client C}.
Implicit Types (dc : daemonSetGenerator C S) (validKernels : gset string).
Implicit Types (entries : list (string * option DaemonSet)) (st : @gc_state C).

(** A run panics on a nil entry only. *)
Lemma GarbageCollect_range_Panic dc entries validKernels st st' :
  GarbageCollect_range dc entries validKernels st = (Panic, st') →
  ∃ k, (k, None) ∈ entries.
Proof.
  revert st. induction entries as [|[k [d|]] rest IH]; intros st Hrun; [done| |].
  - rewrite GarbageCollect_range_cons_Some in Hrun.
    assert (∀ st0, GarbageCollect_range dc rest validKernels st0 = (Panic, st') →
                   ∃ k', (k', @None DaemonSet) ∈ (k, Some d) :: rest) as Hrest.
    { intros st0 [k' Hin]%IH. exists k'. by constructor. }
    case_bool_decide; [|by eapply Hrest].
    destruct (client_Delete (gc_client st) d) as [[e|] c]; [done|].
    by eapply Hrest.
  - exists k. constructor.
Qed.

(** A run that fails has called [client.Delete] on an initial part of
    the targets; every call but the last returned no error, the last
    returned one; the error names the workload of the last call and
    wraps the error of the store; the names accumulated are those of
    the workloads deleted; the store is left as the last call left
    it. *)
Lemma GarbageCollect_range_Err dc entries validKernels st (e : error) st' :
  GarbageCollect_range dc entries validKernels st = (Err e, st') →
  ∃ (succeeded : list DaemonSet) (d : DaemonSet) (cause : error) (c : C),
    gc_calls st' = gc_calls st ++ succeeded ++ [d] ∧
    (succeeded ++ [d]) `prefix_of` gc_targets dc validKernels entries ∧
    delete_each (gc_client st) succeeded = Some c ∧
    client_Delete c d = (Some cause, gc_client st') ∧
    e = could_not_delete (ds_Name d) cause ∧
    gc_deleted st' = gc_deleted st ++ (ds_Name <$> succeeded).
Proof.
  revert st. induction entries as [|[k [d|]] rest IH]; intros st Hrun; [done| |done].
  rewrite GarbageCollect_range_cons_Some in Hrun.
  rewrite gc_targets_cons_Some.
  case_bool_decide as Hcond; [|by apply IH].
  destruct (client_Delete (gc_client st) d) as [[cause|] c] eqn:Hdelete.
  - injection Hrun as <- <-. exists [], d, cause, (gc_client st). simpl.
    rewrite app_nil_r. repeat split; [|done].
    by apply prefix_cons, prefix_nil.
  - apply IH in Hrun
      as (succeeded & d' & cause & c' & Hcalls & Hprefix & Hearlier & Hlast
          & He & Hdeleted).
    simpl in Hcalls, Hdeleted, Hearlier.
    exists (d :: succeeded), d', cause, c'. simpl. rewrite Hdelete.
    rewrite Hcalls, Hdeleted, <- !app_assoc. repeat split; try done.
    by apply prefix_cons.
Qed.

(** Nothing to collect, nothing done. *)
Lemma GarbageCollect_range_no_target dc entries validKernels st :
  (∀ k, (k, None) ∉ entries) →
  gc_targets dc validKernels entries = [] →
  GarbageCollect_range dc entries validKernels st = (Ok (gc_deleted st), st).
Proof.
  revert st. induction entries as [|[k [d|]] rest IH]; intros st Hnonil Htargets.
  - done.
  - rewrite GarbageCollect_range_cons_Some.
    rewrite gc_targets_cons_Some in Htargets.
    case_bool_decide; [done|]. apply IH; [|done].
    intros k' Hin. apply (Hnonil k'). by constructor.
  - destruct (Hnonil k). constructor.
Qed.

(** Only a nil entry makes [GarbageCollect] panic: on entries without
    nil the run returns, and it succeeds when the store refuses no
    deletion. *)
Theorem GarbageCollect_panics_only_on_nil dc entries validKernels :
  ((GarbageCollect dc entries validKernels).1 = Panic →
   ∃ k, (k, None) ∈ entries) ∧
  ((∀ k, (k, None) ∉ entries) →
   (∀ c d, (client_Delete c d).1 = None) →
   ∃ names, (GarbageCollect dc entries validKernels).1 = Ok names).
Proof.
  unfold GarbageCollect. split.
  - destruct (GarbageCollect_range _ _ _ _) as [res st'] eqn:Hrun.
    simpl. intros ->. by eapply GarbageCollect_range_Panic.
  - intros Hnonil Hdelete.
    edestruct (GarbageCollect_range_succeeds dc entries validKernels)
      as (names & st' & Hrun); [done..|].
    exists names. by rewrite Hrun.
Qed.

(** A failed [GarbageCollect] stopped at the first refused deletion:
    the calls made are an initial part of the workloads to delete;
    every call but the last returned no error and stays done in the
    store, the last call was refused, and the store is left as that
    call left it; the error names the workload of the refused call and
    wraps the error of the store; the names accumulated are those of
    the workloads deleted. *)
Theorem GarbageCollect_stops_at_first_refusal dc entries validKernels
    (e : error) st' :
  GarbageCollect dc entries validKernels = (Err e, st') →
  ∃ (succeeded : list DaemonSet) (d : DaemonSet) (cause : error) (c : C),
    gc_calls st' = succeeded ++ [d] ∧
    (succeeded ++ [d]) `prefix_of` gc_targets dc validKernels entries ∧
    delete_each (client dc) succeeded = Some c ∧
    client_Delete c d = (Some cause, gc_client st') ∧
    e = could_not_delete (ds_Name d) cause ∧
    gc_deleted st' = ds_Name <$> succeeded.
Proof.
  unfold GarbageCollect. intros Hrun.
  apply GarbageCollect_range_Err in Hrun
    as (succeeded & d & cause & c & Hcalls & Hprefix & Hearlier & Hlast
        & He & Hdeleted).
  by exists succeeded, d, cause, c.
Qed.

(** When every workload either has no kernel-version label or sits
    under a valid kernel, [GarbageCollect] returns the empty list
    without a single call to the store, whatever the store would
    answer. *)
Theorem GarbageCollect_nothing_stale dc entries validKernels :
  (∀ k, (k, None) ∉ entries) →
  (∀ k d, (k, Some d) ∈ entries →
          kernel_version_of dc d = "" ∨ k ∈ validKernels) →
  GarbageCollect dc entries validKernels
  = (Ok [], {| gc_client := client dc; gc_deleted := []; gc_calls := [] |}).
Proof.
  intros Hnonil Hvalid. unfold GarbageCollect.
  apply GarbageCollect_range_no_target; [done|].
  destruct (gc_targets dc validKernels entries) as [|d targets] eqn:Htargets;
    [done|].
  assert (d ∈ gc_targets dc validKernels entries) as Hin
    by (rewrite Htargets; constructor).
  apply gc_targets_labelled in Hin as [Hlabel (k & Hk & Hkey)].
  destruct (Hvalid k d Hk); done.
Qed.

(** The order in which the map is visited shows in the order of the
    result only: two successful runs over the same entries delete the
    same workloads and return the same names, up to order. *)
Theorem GarbageCollect_order_irrelevant dc entries1 entries2 validKernels
    (names1 names2 : list string) st1 st2 :
  entries1 ≡ₚ entries2 →
  GarbageCollect dc entries1 validKernels = (Ok names1, st1) →
  GarbageCollect dc entries2 validKernels = (Ok names2, st2) →
  gc_calls st1 ≡ₚ gc_calls st2 ∧ names1 ≡ₚ names2.
Proof.
  unfold GarbageCollect. intros Hperm Hrun1 Hrun2.
  apply GarbageCollect_range_Ok in Hrun1 as (_ & Hcalls1 & Hnames1 & _).
  apply GarbageCollect_range_Ok in Hrun2 as (_ & Hcalls2 & Hnames2 & _).
  simpl in *. subst names1 names2. rewrite Hcalls1, Hcalls2.
  unfold gc_targets. by rewrite Hperm.
Qed.

(** [GarbageCollect] after [ModuleDaemonSetsByKernelVersion]: on the
    mapping of a successful lookup, visited in any order, the run does
    not panic, and when it succeeds it has deleted the workloads of the
    entries whose key is neither empty nor a valid kernel: the store it
    leaves is the store of the start after [client.Delete] on each of
    them in turn, every call without an error; and it returns their
    names. *)
Theorem GarbageCollect_after_lookup dc (name namespace : string)
    (m : gmap string (option DaemonSet)) entries validKernels :
  ModuleDaemonSetsByKernelVersion dc name namespace = Ok m →
  entries ≡ₚ map_to_list m →
  (GarbageCollect dc entries validKernels).1 ≠ Panic ∧
  ∀ names st',
    GarbageCollect dc entries validKernels = (Ok names, st') →
    ∃ deleted : list DaemonSet,
      Some <$> deleted = (filter (stale_key validKernels) entries).*2 ∧
      delete_each (client dc) deleted = Some (gc_client st') ∧
      gc_calls st' = deleted ∧
      names = ds_Name <$> deleted.
Proof.
  intros Hlookup Hperm.
  apply ModuleDaemonSetsByKernelVersion_Ok in Hlookup
    as (dsList & _ & _ & Hm).
  assert (∀ k v, (k, v) ∈ entries →
                 ∃ ds, kernel_version_of dc ds = k ∧ v = Some ds) as Hentries.
  { intros k v Hin. rewrite Hperm in Hin.
    apply elem_of_map_to_list, Hm in Hin as (ds & _ & Hk & Hv). by exists ds. }
  assert (∀ k, (k, None) ∉ entries) as Hnonil.
  { intros k Hin. by apply Hentries in Hin as (ds & _ & ?). }
  split.
  - unfold GarbageCollect.
    destruct (GarbageCollect_range _ _ _ _) as [res st'] eqn:Hrun. simpl.
    intros ->. apply GarbageCollect_range_Panic in Hrun as [k Hin].
    by apply Hnonil in Hin.
  - unfold GarbageCollect. intros names st' Hrun.
    pose proof (GarbageCollect_range_Ok_store _ _ _ _ _ _ Hrun) as Hstore.
    apply GarbageCollect_range_Ok in Hrun as (_ & Hcalls & Hnames & _).
    simpl in Hcalls, Hnames, Hstore.
    exists (gc_targets dc validKernels entries).
    split; [|done].
    apply gc_targets_by_key; [done|].
    intros k d Hin. by apply Hentries in Hin as (ds & Hk & [= <-]).
Qed.

End garbage_collection_further.

Lemma GarbageCollect_panics_only_on_nil_witness :
  let dc : daemonSetGenerator nat unit := NewCreator 0 sample_kernelLabel () in
  ∃ names,
    (GarbageCollect dc [("5.10", Some (sample_loader "ds-a" "5.10"))]
       {[ "5.14" ]}).1 = Ok names.
Proof.
  intros dc.
  apply (proj2 (GarbageCollect_panics_only_on_nil dc
                  [("5.10", Some (sample_loader "ds-a" "5.10"))] {[ "5.14" ]})).
  - intros k Hin. apply list_elem_of_singleton in Hin. discriminate Hin.
  - intros c d. reflexivity.
Defined.

Lemma GarbageCollect_stops_at_first_refusal_witness :
  let ds1 := sample_loader "ds1-name" "5.10" in
  let ds3 := sample_loader "ds3-name" "5.12" in
  let ds4 := sample_loader "ds4-name" "5.13" in
  let run := GarbageCollect (sample_generator [ds1; ds4])
               [("5.10", Some ds1); ("5.12", Some ds3); ("5.13", Some ds4)]
               {[ "5.14" ]} in
  run.1 = Err (could_not_delete "ds3-name" (errors_New "not found")) ∧
  gc_client run.2 = [ds4] ∧
  ∃ (succeeded : list DaemonSet) (d : DaemonSet) (cause : error)
    (c : list DaemonSet),
    gc_calls run.2 = succeeded ++ [d] ∧
    delete_each [ds1; ds4] succeeded = Some c ∧
    client_Delete c d = (Some cause, gc_client run.2) ∧
    could_not_delete "ds3-name" (errors_New "not found")
    = could_not_delete (ds_Name d) cause ∧
    gc_deleted run.2 = ds_Name <$> succeeded.
Proof.
  intros ds1 ds3 ds4 run.
  assert (run.1 = Err (could_not_delete "ds3-name" (errors_New "not found")))
    as Hres by (vm_compute; reflexivity).
  assert (run = (Err (could_not_delete "ds3-name" (errors_New "not found")), run.2))
    as Hrun by (rewrite <- Hres; apply surjective_pairing).
  split; [exact Hres|]. split; [vm_compute; reflexivity|].
  destruct (GarbageCollect_stops_at_first_refusal (sample_generator [ds1; ds4])
              [("5.10", Some ds1); ("5.12", Some ds3); ("5.13", Some ds4)]
              {[ "5.14" ]} _ run.2 Hrun)
    as (succeeded & d & cause & c & Hcalls & _ & Hearlier & Hlast & He
        & Hdeleted).
  exists succeeded, d, cause, c. split; [exact Hcalls|].
  split; [exact Hearlier|]. split; [exact Hlast|].
  split; [exact He | exact Hdeleted].
Defined.

Lemma GarbageCollect_nothing_stale_witness :
  let loader := sample_loader "loader" "5.14" in
  let plugin := sample_DaemonSet "plugin" ∅ in
  GarbageCollect (sample_generator []) [("5.14", Some loader); ("", Some plugin)]
    {[ "5.14" ]}
  = (Ok [], {| gc_client := []; gc_deleted := []; gc_calls := [] |}).
Proof.
  intros loader plugin.
  apply (GarbageCollect_nothing_stale (sample_generator [])
           [("5.14", Some loader); ("", Some plugin)] {[ "5.14" ]}).
  - intros k Hin.
    apply elem_of_cons in Hin as [Heq|Hin]; [discriminate Heq|].
    apply list_elem_of_singleton in Hin. discriminate Hin.
  - intros k d Hin.
    apply elem_of_cons in Hin as [Heq|Hin].
    + injection Heq as -> ->. right. apply elem_of_singleton. reflexivity.
    + apply list_elem_of_singleton in Hin. injection Hin as -> ->.
      left. reflexivity.
Defined.

Lemma GarbageCollect_order_irrelevant_witness :
  let a := sample_loader "ds-a" "5.10" in
  let b := sample_loader "ds-b" "5.12" in
  let run1 := GarbageCollect (sample_generator [a; b])
                [("5.10", Some a); ("5.12", Some b)] {[ "5.14" ]} in
  let run2 := GarbageCollect (sample_generator [a; b])
                [("5.12", Some b); ("5.10", Some a)] {[ "5.14" ]} in
  run1.1 = Ok ["ds-a"; "ds-b"] ∧ run2.1 = Ok ["ds-b"; "ds-a"] ∧
  gc_calls run1.2 ≡ₚ gc_calls run2.2.
Proof.
  intros a b run1 run2.
  assert (run1.1 = Ok ["ds-a"; "ds-b"]) as Hres1 by (vm_compute; reflexivity).
  assert (run2.1 = Ok ["ds-b"; "ds-a"]) as Hres2 by (vm_compute; reflexivity).
  assert (run1 = (Ok ["ds-a"; "ds-b"], run1.2)) as Hrun1
    by (rewrite <- Hres1; apply surjective_pairing).
  assert (run2 = (Ok ["ds-b"; "ds-a"], run2.2)) as Hrun2
    by (rewrite <- Hres2; apply surjective_pairing).
  split; [exact Hres1|]. split; [exact Hres2|].
  apply (GarbageCollect_order_irrelevant (sample_generator [a; b])
           [("5.10", Some a); ("5.12", Some b)]
           [("5.12", Some b); ("5.10", Some a)] {[ "5.14" ]}
           ["ds-a"; "ds-b"] ["ds-b"; "ds-a"] run1.2 run2.2);
    [apply perm_swap | exact Hrun1 | exact Hrun2].
Defined.

Lemma GarbageCollect_after_lookup_witness :
  let a := sample_loader "ds-a" "5.10" in
  let b := sample_DaemonSet "ds-b" ∅ in
  let m : gmap string (option DaemonSet) := {[ "5.10" := Some a; "" := Some b ]} in
  let run := GarbageCollect (sample_generator [a; b]) (map_to_list m) {[ "5.14" ]} in
  ModuleDaemonSetsByKernelVersion (sample_generator [a; b]) "mod-a" "ns" = Ok m ∧
  run.1 = Ok ["ds-a"] ∧
  gc_client run.2 = [b] ∧
  ∃ deleted : list DaemonSet,
    Some <$> deleted = [Some a] ∧
    delete_each [a; b] deleted = Some (gc_client run.2).
Proof.
  intros a b m run.
  assert (ModuleDaemonSetsByKernelVersion (sample_generator [a; b]) "mod-a" "ns"
          = Ok m) as Hlookup by (vm_compute; reflexivity).
  assert (run.1 = Ok ["ds-a"]) as Hres by (vm_compute; reflexivity).
  assert (run = (Ok ["ds-a"], run.2)) as Hrun
    by (rewrite <- Hres; apply surjective_pairing).
  destruct (GarbageCollect_after_lookup (sample_generator [a; b]) "mod-a" "ns" m
              (map_to_list m) {[ "5.14" ]} Hlookup) as [_ Hok]; [reflexivity|].
  destruct (Hok ["ds-a"] run.2 Hrun) as (deleted & Hdeleted & Hstore & _).
  split; [exact Hlookup|]. split; [exact Hres|].
  split; [vm_compute; reflexivity|].
  exists deleted. split; [|exact Hstore].
  rewrite Hdeleted. vm_compute. reflexivity.
Defined.

(** ** The device-plugin sentinel *)

(** The exported test of the sentinel and the readings inside the
    package agree: the sentinel the package hands out passes the test;
    a workload is a device plugin to [isDevicePluginDaemonSet] exactly
    when its kernel-version label passes it; and a pod gets the
    device-plugin readiness key exactly when its label passes it. *)
Theorem device_plugin_sentinel_consistent {C S : Type}
    (dc : daemonSetGenerator C S) (d : DaemonSet) (pod : Pod)
    (moduleName : string) :
  IsDevicePluginKernelVersion GetDevicePluginKernelVersion = true ∧
  (∀ kernelVersion,
     IsDevicePluginKernelVersion kernelVersion = true ↔ kernelVersion = "") ∧
  isDevicePluginDaemonSet dc (Some d)
  = Ok (IsDevicePluginKernelVersion (kernel_version_of dc d)) ∧
  (GetNodeLabelFromPod dc (Some pod) moduleName
   = Ok (getDevicePluginNodeLabel moduleName)
   ↔ IsDevicePluginKernelVersion
       (index (Labels (pod_ObjectMeta pod)) (kernelLabel dc)) = true).
Proof.
  unfold IsDevicePluginKernelVersion, GetDevicePluginKernelVersion,
    devicePluginKernelVersion.
  split; [by apply bool_decide_eq_true|].
  split; [intros kernelVersion; apply bool_decide_eq_true|].
  split; [done|].
  unfold GetNodeLabelFromPod, devicePluginKernelVersion.
  pose proof (readiness_labels_differ moduleName) as Hne.
  case_bool_decide; split; try done. intros Heq. exfalso. apply Hne. congruence.
Qed.
